(** * OPT4001 ambient light sensor driver: register decoding and lux reads

    A shallow embedding of [OPT4001.py] (the CircuitPython driver) and the
    properties of its measurement path: the bit-field decoding of the result
    registers, the lux formula, the four public read operations and the
    conversion-ready polling loop. *)

From Stdlib Require Import ZArith List Bool Lia Floats Uint63.
From Stdlib.Strings Require Import Byte.
Import ListNotations.
Local Open Scope Z_scope.
Set Warnings "-inexact-float,-register-all".

(** ** Register map (page 25 of the datasheet) *)

Definition RESULT_H : Z := 0x00.
Definition RESULT_L : Z := 0x01.
Definition FIFO_0_H : Z := 0x02.
Definition FIFO_0_L : Z := 0x03.
Definition FIFO_1_H : Z := 0x04.
Definition FIFO_1_L : Z := 0x05.
Definition FIFO_2_H : Z := 0x06.
Definition FIFO_2_L : Z := 0x07.
Definition FLAGS : Z := 0x0C.

(** ** Python values, exceptions and the world the driver runs in *)

(** What a read operation hands back: a float, an int, or a tuple. *)
Inductive value : Type :=
| Float (x : float)
| Int (n : Z)
| Tuple (items : list value).

Inductive exn : Type :=
| KeyError (key : Z)          (* subscript of a dict with a missing key *)
| OSError (register : Z)      (* the I2C transaction failed *)
| ValueError                  (* byte must be in range(0, 256) *)
| IndexError.                 (* bytearray index out of range *)

Inductive outcome (A : Type) : Type :=
| Returns (a : A)
| Raises (e : exn)
| OutOfFuel.
Arguments Returns {A} a.
Arguments Raises {A} e.
Arguments OutOfFuel {A}.

(** [buf] is [self.buf]; [bus_log] lists the register addresses put on the
    bus so far, most recent first; [clock] is the millisecond counter behind
    [time.monotonic()]. *)
Record world : Type := mkWorld {
  buf : list Z;
  bus_log : list Z;
  clock : Z
}.

(** The sensor on the other end of the bus: at a given time, after a given
    history of accesses, a transaction addressed to a register either fails
    or clocks out bytes (the first three are all the driver ever takes). *)
Definition sensor : Type := Z -> list Z -> Z -> option (byte * byte * byte).

Definition byte_val (b : byte) : Z := Z.of_N (Byte.to_N b).

(** ** State and exception monad *)

Definition M (A : Type) : Type := world -> outcome A * world.

Definition ret {A} (a : A) : M A := fun w => (Returns a, w).

Definition raise {A} (e : exn) : M A := fun w => (Raises e, w).

Definition bind {A B} (m : M A) (k : A -> M B) : M B :=
  fun w =>
    match m w with
    | (Returns a, w') => k a w'
    | (Raises e, w') => (Raises e, w')
    | (OutOfFuel, w') => (OutOfFuel, w')
    end.

Notation "x <- m ;; k" := (bind m (fun x => k))
  (at level 61, m at next level, right associativity).
Notation "' pat <- m ;; k" := (bind m (fun x => match x with pat => k end))
  (at level 61, pat pattern, m at next level, right associativity).
Notation "m ;; k" := (bind m (fun _ => k))
  (at level 61, right associativity).

(** ** bytearray access *)

Fixpoint list_set (l : list Z) (i : nat) (v : Z) : list Z :=
  match l, i with
  | [], _ => []
  | _ :: tl, O => v :: tl
  | hd :: tl, S i' => hd :: list_set tl i' v
  end.

(** [self.buf[i]] *)
Definition buf_get (i : nat) : M Z :=
  fun w =>
    match nth_error (buf w) i with
    | Some b => (Returns b, w)
    | None => (Raises IndexError, w)
    end.

(** [self.buf[i] = v] *)
Definition buf_set (i : nat) (v : Z) : M unit :=
  fun w =>
    if (i <? length (buf w))%nat then
      if (0 <=? v) && (v <? 256) then
        (Returns tt, mkWorld (list_set (buf w) i v) (bus_log w) (clock w))
      else (Raises ValueError, w)
    else (Raises IndexError, w).

(** ** int and float arithmetic *)

(** Conversion of a Python int to a float (binary64, round to nearest even).
    The primitive conversion covers [0, 2^63); every ADC code the sensor can
    report is below 2^35. *)
Definition float_of_int (n : Z) : float :=
  if (0 <=? n) && (n <? 2 ^ 63) then PrimFloat.of_uint63 (Uint63.of_Z n)
  else SF2Prim (binary_normalize prec emax n 0 false).

(** [n * x] for an int [n] and a float [x]. *)
Definition int_mul_float (n : Z) (x : float) : float :=
  PrimFloat.mul (float_of_int n) x.

(** ** Clock *)

(** What [time.monotonic()] reads when the counter shows [ms] milliseconds:
    that many seconds, as a binary64 float. *)
Definition monotonic_of (ms : Z) : float :=
  PrimFloat.div (float_of_int ms) 1000%float.

(** [time.monotonic()] *)
Definition time_monotonic : M float :=
  fun w => (Returns (monotonic_of (clock w)), w).

(** [time.sleep(ms / 1000)] *)
Definition time_sleep (ms : Z) : M unit :=
  fun w => (Returns tt, mkWorld (buf w) (bus_log w) (clock w + ms)).

(** ** The lux formula *)

(** The equations of pages 17 and 18 of the datasheet, as written at the end
    of [result_of_addr] and of [read_from_fifo] (the same three lines). *)
Definition mantissa (result_msb result_lsb : Z) : Z :=
  Z.shiftl result_msb 8 + result_lsb.

Definition adc_codes (exponent result_msb result_lsb : Z) : Z :=
  Z.shiftl (mantissa result_msb result_lsb) exponent.

Definition lux_of (exponent result_msb result_lsb : Z) : float :=
  int_mul_float (adc_codes exponent result_msb result_lsb) 0.0004375%float.

(** ** The dict of FIFO channels *)

Definition channels : list (Z * (Z * Z)) :=
  [ (0, (FIFO_0_H, FIFO_0_L));
    (1, (FIFO_1_H, FIFO_1_L));
    (2, (FIFO_2_H, FIFO_2_L)) ].

Fixpoint dict_find {V : Type} (d : list (Z * V)) (key : Z) : option V :=
  match d with
  | [] => None
  | (k, v) :: rest => if k =? key then Some v else dict_find rest key
  end.

(** [d[key]] *)
Definition subscript {V : Type} (d : list (Z * V)) (key : Z) : M V :=
  match dict_find d key with
  | Some v => ret v
  | None => raise (KeyError key)
  end.

(** ** The driver *)

Section Driver.

Variable dev : sensor.

(** [i2c.write_then_readinto(self.buf, self.buf, out_end=1, in_start=0)]:
    the first byte of the buffer goes out as the register address, then the
    buffer (three bytes long) is filled from the device. *)
Definition write_then_readinto_buf : M unit :=
  fun w =>
    match buf w with
    | [] => (Raises IndexError, w)
    | addr :: _ =>
        match dev (clock w) (bus_log w) addr with
        | Some (d0, d1, d2) =>
            (Returns tt,
             mkWorld [byte_val d0; byte_val d1; byte_val d2]
                     (addr :: bus_log w) (clock w))
        | None =>
            (Raises (OSError addr),
             mkWorld (buf w) (addr :: bus_log w) (clock w))
        end
    end.

Definition read_u16 (addr : Z) : M unit :=
  buf_set 0 addr ;;
  write_then_readinto_buf.

(** Modelled from the spec: the conversion-ready bit of the flags
    collaborator, declared in the driver as
    [ROBit(FLAGS, 2, register_width=2, lsb_first=False)]; the descriptor
    class belongs to the adafruit_register library.  One transaction on
    FLAGS through a buffer of its own, then bit 2 of the low-order byte. *)
Definition conversion_ready_flag : M bool :=
  fun w =>
    let w' := mkWorld (buf w) (FLAGS :: bus_log w) (clock w) in
    match dev (clock w) (bus_log w) FLAGS with
    | Some (_, d1, _) => (Returns (Z.testbit (byte_val d1) 2), w')
    | None => (Raises (OSError FLAGS), w')
    end.

Definition get_exp_msb (register : Z) : M (Z * Z) :=
  read_u16 register ;;
  b0 <- buf_get 0 ;;
  let exponent := Z.land (Z.shiftr b0 4) (Z.shiftl 1 4 - 1) in
  let result_msb := Z.land b0 (Z.shiftl 1 4 - 1) in
  let result_msb := Z.shiftl result_msb 8 in
  b1 <- buf_get 1 ;;
  let result_msb := result_msb + b1 in
  ret (exponent, result_msb).

Definition get_lsb_counter_crc (register : Z) : M (Z * Z * Z) :=
  read_u16 register ;;
  b0 <- buf_get 0 ;;
  let result_lsb := b0 in
  b1 <- buf_get 1 ;;
  let counter := Z.land (Z.shiftr b1 4) (Z.shiftl 1 4 - 1) in
  let crc := Z.land b1 (Z.shiftl 1 4 - 1) in
  ret (result_lsb, counter, crc).

(** The polling loop of [result_of_addr]:
    [while time.monotonic() < start_time: if flag: break; time.sleep(0.001)]. *)
Fixpoint wait_conversion_ready (fuel : nat) (start_time : float) : M unit :=
  match fuel with
  | O => fun w => (OutOfFuel, w)
  | S fuel' =>
      now <- time_monotonic ;;
      if PrimFloat.ltb now start_time then
        ready <- conversion_ready_flag ;;
        if ready : bool then ret tt
        else (time_sleep 1 ;; wait_conversion_ready fuel' start_time)
      else ret tt
  end.

(** [return lux if just_lux else lux, counter, crc] is the tuple
    [((lux if just_lux else lux), counter, crc)]: the conditional binds
    tighter than the commas. *)
Definition result_of_addr (fuel : nat) (just_lux : bool) : M value :=
  now <- time_monotonic ;;
  let start_time := PrimFloat.add now 1.1%float in
  wait_conversion_ready fuel start_time ;;
  '(exponent, result_msb) <- get_exp_msb RESULT_H ;;
  '(result_lsb, counter, crc) <- get_lsb_counter_crc RESULT_L ;;
  let lux := lux_of exponent result_msb result_lsb in
  ret (Tuple [Float (if just_lux then lux else lux); Int counter; Int crc]).

Definition read_from_fifo (register_high regist_low : Z) (just_lux : bool)
  : M value :=
  '(exponent, result_msb) <- get_exp_msb register_high ;;
  '(result_lsb, counter, crc) <- get_lsb_counter_crc regist_low ;;
  let lux := lux_of exponent result_msb result_lsb in
  ret (Tuple [Float (if just_lux then lux else lux); Int counter; Int crc]).

(** The [lux] property. *)
Definition lux (fuel : nat) : M value := result_of_addr fuel true.

(** The [result] property. *)
Definition result (fuel : nat) : M value := result_of_addr fuel false.

Definition read_lux_FIFO (id : Z) : M value :=
  '(register_h, register_l) <- subscript channels id ;;
  read_from_fifo register_h register_l true.

Definition read_result_FIFO (id : Z) : M value :=
  '(register_h, register_l) <- subscript channels id ;;
  read_from_fifo register_h register_l false.

End Driver.

(** ** Identity check *)

Definition DEVICE_ID : Z := 0x11.

Section Identity.

Variable dev : sensor.

(** [check_id]: DIDL (bits 13-12 of the register) must be 0 and DIDH
    (bits 11-0) must be 0x121. *)
Definition check_id : M bool :=
  read_u16 dev DEVICE_ID ;;
  b0 <- buf_get 0 ;;
  let DIDL := Z.land (Z.shiftr b0 4) (Z.shiftl 1 2 - 1) in
  if negb (DIDL =? 0) then ret false
  else
    b0 <- buf_get 0 ;;
    let DIDH := Z.land b0 (Z.shiftl 1 4 - 1) in
    b1 <- buf_get 1 ;;
    let DIDH := Z.shiftl DIDH 8 + b1 in
    if negb (DIDH =? 0x121) then ret false
    else ret true.

End Identity.

(** ** Worlds and sensors used in the statements *)

(** The world after a successful read of [register]. *)
Definition after_read (register : Z) (d : byte * byte * byte) (w : world)
  : world :=
  let '(d0, d1, d2) := d in
  mkWorld [byte_val d0; byte_val d1; byte_val d2]
          (register :: bus_log w) (clock w).


(** What a poll of FLAGS at time [t], after the accesses [log], would show:
    the conversion-ready bit, or nothing when the transaction fails. *)
Definition flag_at (dev : sensor) (t : Z) (log : list Z) : option bool :=
  match dev t log FLAGS with
  | Some (_, d1, _) => Some (Z.testbit (byte_val d1) 2)
  | None => None
  end.

(** A bench sensor whose conversion ends at time [ready]: FLAGS shows the
    ready bit from then on; the result registers answer as in [bench]. *)
Definition bench_ready_at (ready : Z) (high low : byte * byte) : sensor :=
  fun t _ register =>
    if register =? FLAGS then
      if t <? ready then Some (x00, x00, x00) else Some (x00, x04, x00)
    else if Z.even register then Some (fst high, snd high, x00)
    else Some (fst low, snd low, x00).

(** A bench sensor on a broken bus: the transactions addressed to [dead]
    fail, the others answer [d]. *)
Definition bench_dead (dead : Z) (d : byte * byte * byte) : sensor :=
  fun _ _ register => if register =? dead then None else Some d.

(** A bench sensor that answers every transaction with the same bytes. *)
Definition steady (d : byte * byte * byte) : sensor := fun _ _ _ => Some d.

(** A bench sensor that tells the registers apart: FLAGS answers [flags],
    the high result registers (even addresses) answer [high], the low ones
    answer [low]. *)
Definition bench (high low flags : byte * byte) : sensor :=
  fun _ _ register =>
    if register =? FLAGS then Some (fst flags, snd flags, x00)
    else if Z.even register then Some (fst high, snd high, x00)
    else Some (fst low, snd low, x00).

(** ** A checker for the order of neighbouring ADC codes

    Not part of the driver: [range_ok d e lo] runs the lux product on the
    machine integers [lo], ..., [lo + 2^d - 1], each shifted left by [e], and
    tests that no code gives more lux than its right neighbour. *)

Definition lux_of_code (n : int) : float :=
  PrimFloat.mul (PrimFloat.of_uint63 n) 0.0004375%float.

Definition step_ok (e i : int) : bool :=
  PrimFloat.leb (lux_of_code (Uint63.lsl i e))
                (lux_of_code (Uint63.lsl (Uint63.add i 1) e)).

Fixpoint pow2i (d : nat) : int :=
  match d with
  | O => 1%uint63
  | S d' => Uint63.mul 2 (pow2i d')
  end.

Fixpoint range_ok (d : nat) (e lo : int) : bool :=
  match d with
  | O => step_ok e lo
  | S d' => range_ok d' e lo && range_ok d' e (Uint63.add lo (pow2i d'))
  end.

(** ** A checker for the polling window

    Not part of the driver: [window_ok t] evaluates, for a wait that starts
    with the counter at [t], the loop test of [result_of_addr] at the polls
    number 1099 and 1101, and compares the clock readings at [t] and
    [t + 1]; [all_ok p d lo] runs a test over [lo], ..., [lo + 2^d - 1]. *)

Definition monotonic_of_code (n : int) : float :=
  PrimFloat.div (PrimFloat.of_uint63 n) 1000%float.

Definition tick_ok (t : int) : bool :=
  PrimFloat.leb (monotonic_of_code t) (monotonic_of_code (Uint63.add t 1)).

Definition window_ok (t : int) : bool :=
  let start_time := PrimFloat.add (monotonic_of_code t) 1.1%float in
  PrimFloat.ltb (monotonic_of_code (Uint63.add t 1099)) start_time
  && negb (PrimFloat.ltb (monotonic_of_code (Uint63.add t 1101)) start_time)
  && tick_ok t.

Fixpoint all_ok (p : int -> bool) (d : nat) (lo : int) : bool :=
  match d with
  | O => p lo
  | S d' => all_ok p d' lo && all_ok p d' (Uint63.add lo (pow2i d'))
  end.

(** * Properties *)

Lemma Returns_inj {A : Type} (a b : A) : Returns a = Returns b -> a = b.
Proof. intros H. injection H as H. exact H. Qed.

(** ** Bytes and bit fields *)

Lemma byte_val_range (b : byte) : 0 <= byte_val b < 256.
Proof.
  unfold byte_val. pose proof (Byte.to_N_bounded b). lia.
Qed.

(** Adding a value below [2^n] to a multiple of [2^n] sets no carry: the sum
    is the bitwise or. *)
Lemma shiftl_add_lor (a b n : Z) :
  0 <= n -> 0 <= b < 2 ^ n -> Z.shiftl a n + b = Z.lor (Z.shiftl a n) b.
Proof.
  intros Hn Hb.
  assert (Hdisj : Z.land (Z.shiftl a n) b = 0).
  { apply Z.bits_inj'. intros i Hi.
    rewrite Z.land_spec, Z.bits_0.
    destruct (Z.ltb_spec i n) as [Hlt | Hge].
    - rewrite Z.shiftl_spec_low by lia. reflexivity.
    - destruct (Z.eq_dec b 0) as [-> | Hnz].
      + rewrite Z.bits_0. apply andb_false_r.
      + rewrite (Z.bits_above_log2 b i); [apply andb_false_r | lia |].
        apply Z.log2_lt_pow2; [lia |].
        apply Z.lt_le_trans with (2 ^ n); [lia |].
        apply Z.pow_le_mono_r; lia. }
  rewrite Z.add_nocarry_lxor by exact Hdisj.
  apply Z.lxor_lor. exact Hdisj.
Qed.

Lemma nibble_mask : Z.shiftl 1 4 - 1 = Z.ones 4.
Proof. reflexivity. Qed.

Lemma high_nibble (x : Z) :
  0 <= x < 256 -> Z.land (Z.shiftr x 4) (Z.shiftl 1 4 - 1) = x / 16.
Proof.
  intros Hx. rewrite nibble_mask, Z.land_ones, Z.shiftr_div_pow2 by lia.
  change (2 ^ 4) with 16. apply Z.mod_small.
  split; [apply Z.div_pos; lia | apply Z.div_lt_upper_bound; lia].
Qed.

Lemma low_nibble (x : Z) : Z.land x (Z.shiftl 1 4 - 1) = x mod 16.
Proof.
  rewrite nibble_mask, Z.land_ones by lia. reflexivity.
Qed.

(** ** What one register read leaves behind *)

Section Reads.

Variable dev : sensor.

Lemma read_u16_run (register x y z : Z) (log : list Z) (t : Z) :
  0 <= register < 256 ->
  read_u16 dev register (mkWorld [x; y; z] log t) =
  match dev t log register with
  | Some d => (Returns tt, after_read register d (mkWorld [x; y; z] log t))
  | None => (Raises (OSError register),
             mkWorld [register; y; z] (register :: log) t)
  end.
Proof.
  intros Hr. unfold read_u16, bind, buf_set, write_then_readinto_buf. cbn.
  replace ((0 <=? register) && (register <? 256)) with true
    by (symmetry; apply andb_true_iff; split; [apply Z.leb_le | apply Z.ltb_lt]; lia).
  cbn. destruct (dev t log register) as [[[d0 d1] d2] |]; reflexivity.
Qed.

Lemma get_exp_msb_run (register x y z : Z) (log : list Z) (t : Z) :
  0 <= register < 256 ->
  get_exp_msb dev register (mkWorld [x; y; z] log t) =
  match dev t log register with
  | Some (d0, d1, d2) =>
      (Returns (Z.land (Z.shiftr (byte_val d0) 4) (Z.shiftl 1 4 - 1),
                Z.shiftl (Z.land (byte_val d0) (Z.shiftl 1 4 - 1)) 8
                + byte_val d1),
       after_read register (d0, d1, d2) (mkWorld [x; y; z] log t))
  | None => (Raises (OSError register),
             mkWorld [register; y; z] (register :: log) t)
  end.
Proof.
  intros Hr. unfold get_exp_msb, bind at 1.
  rewrite read_u16_run by exact Hr.
  destruct (dev t log register) as [[[d0 d1] d2] |]; reflexivity.
Qed.

Lemma get_lsb_counter_crc_run (register x y z : Z) (log : list Z) (t : Z) :
  0 <= register < 256 ->
  get_lsb_counter_crc dev register (mkWorld [x; y; z] log t) =
  match dev t log register with
  | Some (d0, d1, d2) =>
      (Returns (byte_val d0,
                Z.land (Z.shiftr (byte_val d1) 4) (Z.shiftl 1 4 - 1),
                Z.land (byte_val d1) (Z.shiftl 1 4 - 1)),
       after_read register (d0, d1, d2) (mkWorld [x; y; z] log t))
  | None => (Raises (OSError register),
             mkWorld [register; y; z] (register :: log) t)
  end.
Proof.
  intros Hr. unfold get_lsb_counter_crc, bind at 1.
  rewrite read_u16_run by exact Hr.
  destruct (dev t log register) as [[[d0 d1] d2] |]; reflexivity.
Qed.

End Reads.

(** ** Decoding of the two result registers *)

Lemma msb_add_lor (b0 b1 : byte) :
  Z.shiftl (Z.land (byte_val b0) (Z.shiftl 1 4 - 1)) 8 + byte_val b1 =
  Z.lor (Z.shiftl (Z.land (byte_val b0) 0xF) 8) (byte_val b1).
Proof.
  apply shiftl_add_lor; [lia |]. change (2 ^ 8) with 256. apply byte_val_range.
Qed.

(** C3: for the two bytes a register read returns, the high-register decoder
    yields exponent = (byte0 >> 4) & 0xF and result_msb =
    ((byte0 & 0xF) << 8) | byte1, and the low-register decoder yields
    result_lsb = byte0, counter = (byte1 >> 4) & 0xF and crc = byte1 & 0xF. *)
Theorem decode_registers (dev : sensor) (register x y z : Z) (log : list Z)
    (t : Z) (d0 d1 d2 : byte) :
  0 <= register < 256 ->
  dev t log register = Some (d0, d1, d2) ->
  fst (get_exp_msb dev register (mkWorld [x; y; z] log t)) =
    Returns (Z.land (Z.shiftr (byte_val d0) 4) 0xF,
             Z.lor (Z.shiftl (Z.land (byte_val d0) 0xF) 8) (byte_val d1))
  /\
  fst (get_lsb_counter_crc dev register (mkWorld [x; y; z] log t)) =
    Returns (byte_val d0,
             Z.land (Z.shiftr (byte_val d1) 4) 0xF,
             Z.land (byte_val d1) 0xF).
Proof.
  intros Hr Hdev. split.
  - rewrite get_exp_msb_run, Hdev by exact Hr. cbn [fst].
    rewrite msb_add_lor. reflexivity.
  - rewrite get_lsb_counter_crc_run, Hdev by exact Hr. reflexivity.
Qed.

Lemma decode_registers_witness :
  fst (get_exp_msb (steady (xb7, x5a, x00)) RESULT_H (mkWorld [0; 0; 0] [] 0)) =
    Returns (11, 0x75a)
  /\
  fst (get_lsb_counter_crc (steady (xb7, x5a, x00)) RESULT_L
         (mkWorld [0; 0; 0] [] 0)) =
    Returns (0xb7, 5, 10).
Proof.
  apply (decode_registers (steady (xb7, x5a, x00)) RESULT_H 0 0 0 [] 0
           xb7 x5a x00).
  - unfold RESULT_H. lia.
  - reflexivity.
Defined.

(** The arithmetic behind the round trip, on plain bytes. *)
Lemma join_nibbles (b : Z) :
  0 <= b < 256 -> Z.lor (Z.shiftl (b / 16) 4) (b mod 16) = b.
Proof.
  intros Hb. rewrite <- shiftl_add_lor.
  - rewrite Z.shiftl_mul_pow2 by lia. change (2 ^ 4) with 16.
    pose proof (Z.div_mod b 16). lia.
  - lia.
  - change (2 ^ 4) with 16. apply Z.mod_pos_bound. lia.
Qed.

Lemma msb_split (b0 b1 : Z) :
  0 <= b0 < 256 -> 0 <= b1 < 256 ->
  Z.shiftr (Z.shiftl (b0 mod 16) 8 + b1) 8 = b0 mod 16 /\
  Z.land (Z.shiftl (b0 mod 16) 8 + b1) 0xFF = b1.
Proof.
  intros H0 H1.
  rewrite Z.shiftl_mul_pow2, Z.shiftr_div_pow2 by lia.
  change 0xFF with (Z.ones 8). rewrite Z.land_ones by lia.
  change (2 ^ 8) with 256. split.
  - rewrite Z.div_add_l by lia. rewrite (Z.div_small b1 256) by lia. lia.
  - rewrite Z.add_comm, Z.mod_add by lia. apply Z.mod_small. lia.
Qed.

(** C6: the decomposition into bit fields loses nothing.  From the decoded
    (exponent, result_msb) the high register's bytes are
    (exponent << 4) | (result_msb >> 8) and result_msb & 0xFF; from the
    decoded (result_lsb, counter, crc) the low register's bytes are
    result_lsb and (counter << 4) | crc. *)
Theorem bit_fields_round_trip (dev : sensor) (register x y z : Z)
    (log : list Z) (t : Z) (d0 d1 d2 : byte)
    (exponent result_msb result_lsb counter crc : Z) :
  0 <= register < 256 ->
  dev t log register = Some (d0, d1, d2) ->
  fst (get_exp_msb dev register (mkWorld [x; y; z] log t)) =
    Returns (exponent, result_msb) ->
  fst (get_lsb_counter_crc dev register (mkWorld [x; y; z] log t)) =
    Returns (result_lsb, counter, crc) ->
  (Z.lor (Z.shiftl exponent 4) (Z.shiftr result_msb 8) = byte_val d0 /\
   Z.land result_msb 0xFF = byte_val d1)
  /\
  (result_lsb = byte_val d0 /\
   Z.lor (Z.shiftl counter 4) crc = byte_val d1).
Proof.
  intros Hr Hdev Hhigh Hlow.
  rewrite get_exp_msb_run, Hdev in Hhigh by exact Hr.
  rewrite get_lsb_counter_crc_run, Hdev in Hlow by exact Hr.
  cbn [fst] in Hhigh, Hlow.
  apply Returns_inj, pair_equal_spec in Hhigh. destruct Hhigh as [<- <-].
  apply Returns_inj, pair_equal_spec in Hlow. destruct Hlow as [Hlow <-].
  apply pair_equal_spec in Hlow. destruct Hlow as [<- <-].
  pose proof (byte_val_range d0) as H0. pose proof (byte_val_range d1) as H1.
  rewrite !high_nibble, !low_nibble by assumption.
  destruct (msb_split _ _ H0 H1) as [Hq Hm].
  rewrite Hq, Hm, !join_nibbles by assumption.
  repeat split.
Qed.

Lemma bit_fields_round_trip_witness :
  (Z.lor (Z.shiftl 11 4) (Z.shiftr 0x75a 8) = byte_val xb7 /\
   Z.land 0x75a 0xFF = byte_val x5a)
  /\
  (0xb7 = byte_val xb7 /\ Z.lor (Z.shiftl 5 4) 10 = byte_val x5a).
Proof.
  apply (bit_fields_round_trip (steady (xb7, x5a, x00)) FIFO_1_H 0 0 0 [] 0
           xb7 x5a x00 11 0x75a 0xb7 5 10).
  - unfold FIFO_1_H. lia.
  - reflexivity.
  - reflexivity.
  - reflexivity.
Defined.

(** ** The lux formula *)

Lemma mantissa_lor (result_msb result_lsb : Z) :
  0 <= result_lsb < 256 ->
  mantissa result_msb result_lsb = Z.lor (Z.shiftl result_msb 8) result_lsb.
Proof.
  intros Hl. unfold mantissa. apply shiftl_add_lor; [lia | exact Hl].
Qed.

Lemma mantissa_range (result_msb result_lsb : Z) :
  0 <= result_msb <= 4095 -> 0 <= result_lsb <= 255 ->
  0 <= mantissa result_msb result_lsb < 2 ^ 20.
Proof.
  intros Hm Hl. unfold mantissa. rewrite Z.shiftl_mul_pow2 by lia.
  change (2 ^ 8) with 256. change (2 ^ 20) with 1048576. lia.
Qed.

Lemma adc_codes_mul (exponent result_msb result_lsb : Z) :
  0 <= exponent ->
  adc_codes exponent result_msb result_lsb =
  mantissa result_msb result_lsb * 2 ^ exponent.
Proof.
  intros He. unfold adc_codes. apply Z.shiftl_mul_pow2. exact He.
Qed.

(** C9: for exponent in [0,11], result_msb in [0,4095] and result_lsb in
    [0,255] the ADC code, which is ((result_msb << 8) | result_lsb) << exponent,
    is strictly below 2^31. *)
Theorem adc_codes_below_2_31 (exponent result_msb result_lsb : Z) :
  0 <= exponent <= 11 ->
  0 <= result_msb <= 4095 ->
  0 <= result_lsb <= 255 ->
  adc_codes exponent result_msb result_lsb =
    Z.shiftl (Z.lor (Z.shiftl result_msb 8) result_lsb) exponent
  /\ 0 <= adc_codes exponent result_msb result_lsb < 2 ^ 31.
Proof.
  intros He Hm Hl. split.
  - unfold adc_codes. rewrite mantissa_lor by lia. reflexivity.
  - rewrite adc_codes_mul by lia.
    pose proof (mantissa_range _ _ Hm Hl) as Hman.
    assert (Hpow : 0 < 2 ^ exponent <= 2 ^ 11).
    { split; [apply Z.pow_pos_nonneg; lia | apply Z.pow_le_mono_r; lia]. }
    change (2 ^ 20) with 1048576 in Hman. change (2 ^ 11) with 2048 in Hpow.
    change (2 ^ 31) with 2147483648. nia.
Qed.

Lemma adc_codes_below_2_31_witness :
  adc_codes 11 4095 255 = Z.shiftl (Z.lor (Z.shiftl 4095 8) 255) 11
  /\ 0 <= adc_codes 11 4095 255 < 2 ^ 31.
Proof.
  apply (adc_codes_below_2_31 11 4095 255); lia.
Defined.

(** ** A FIFO read, start to end *)

Section FifoRead.

Variable dev : sensor.

Lemma read_from_fifo_run (register_high regist_low : Z) (just_lux : bool)
    (x y z : Z) (log : list Z) (t : Z) (h0 h1 h2 l0 l1 l2 : byte) :
  0 <= register_high < 256 ->
  0 <= regist_low < 256 ->
  dev t log register_high = Some (h0, h1, h2) ->
  dev t (register_high :: log) regist_low = Some (l0, l1, l2) ->
  read_from_fifo dev register_high regist_low just_lux
    (mkWorld [x; y; z] log t) =
  (Returns
     (Tuple [Float (lux_of
                      (Z.land (Z.shiftr (byte_val h0) 4) (Z.shiftl 1 4 - 1))
                      (Z.shiftl (Z.land (byte_val h0) (Z.shiftl 1 4 - 1)) 8
                       + byte_val h1)
                      (byte_val l0));
             Int (Z.land (Z.shiftr (byte_val l1) 4) (Z.shiftl 1 4 - 1));
             Int (Z.land (byte_val l1) (Z.shiftl 1 4 - 1))]),
   mkWorld [byte_val l0; byte_val l1; byte_val l2]
           (regist_low :: register_high :: log) t).
Proof.
  intros Hrh Hrl Hh Hl. unfold read_from_fifo, bind at 1.
  rewrite get_exp_msb_run, Hh by exact Hrh.
  cbn [after_read bus_log clock]. unfold bind at 1.
  rewrite get_lsb_counter_crc_run, Hl by exact Hrl.
  cbn [after_read bus_log clock]. unfold ret.
  destruct just_lux; reflexivity.
Qed.

(** An out-of-range key never reaches the bus. *)
Lemma channels_miss (id : Z) :
  id <> 0 -> id <> 1 -> id <> 2 -> dict_find channels id = None.
Proof.
  intros H0 H1 H2. unfold channels. cbn [dict_find].
  destruct (Z.eqb_spec 0 id); [congruence |].
  destruct (Z.eqb_spec 1 id); [congruence |].
  destruct (Z.eqb_spec 2 id); [congruence |].
  reflexivity.
Qed.

End FifoRead.

(** C5: for a slot other than 0, 1 and 2, [read_lux_FIFO] and
    [read_result_FIFO] both fail on the lookup of the channel (KeyError), and
    they leave the world as it was: no register address has gone out on the
    bus. *)
Theorem fifo_slot_out_of_range (dev : sensor) (id : Z) (w : world) :
  id <> 0 -> id <> 1 -> id <> 2 ->
  read_lux_FIFO dev id w = (Raises (KeyError id), w) /\
  read_result_FIFO dev id w = (Raises (KeyError id), w) /\
  bus_log (snd (read_lux_FIFO dev id w)) = bus_log w /\
  bus_log (snd (read_result_FIFO dev id w)) = bus_log w.
Proof.
  intros H0 H1 H2.
  assert (Hlux : read_lux_FIFO dev id w = (Raises (KeyError id), w)).
  { unfold read_lux_FIFO, bind, subscript.
    rewrite channels_miss by assumption. reflexivity. }
  assert (Hres : read_result_FIFO dev id w = (Raises (KeyError id), w)).
  { unfold read_result_FIFO, bind, subscript.
    rewrite channels_miss by assumption. reflexivity. }
  rewrite Hlux, Hres. repeat split.
Qed.

Lemma fifo_slot_out_of_range_witness :
  read_lux_FIFO (steady (x00, x01, x00)) 3 (mkWorld [0; 0; 0] [] 0) =
    (Raises (KeyError 3), mkWorld [0; 0; 0] [] 0) /\
  read_result_FIFO (steady (x00, x01, x00)) 3 (mkWorld [0; 0; 0] [] 0) =
    (Raises (KeyError 3), mkWorld [0; 0; 0] [] 0) /\
  bus_log (snd (read_lux_FIFO (steady (x00, x01, x00)) 3
                  (mkWorld [0; 0; 0] [] 0))) = [] /\
  bus_log (snd (read_result_FIFO (steady (x00, x01, x00)) 3
                  (mkWorld [0; 0; 0] [] 0))) = [].
Proof.
  apply (fifo_slot_out_of_range (steady (x00, x01, x00)) 3
           (mkWorld [0; 0; 0] [] 0)); lia.
Defined.

(** C10: for a slot in 0, 1, 2, [read_lux_FIFO] and [read_result_FIFO] run
    against the same sensor from the same state give the same outcome and
    leave the same state: [just_lux] changes neither the shape nor the
    contents of what [read_from_fifo] returns. *)
Theorem fifo_reads_agree (dev : sensor) (id : Z) (w : world) :
  id = 0 \/ id = 1 \/ id = 2 ->
  read_lux_FIFO dev id w = read_result_FIFO dev id w.
Proof.
  intros _. unfold read_lux_FIFO, read_result_FIFO, bind.
  destruct (subscript channels id w) as [[[rh rl] | e |] w']; [| reflexivity ..].
  unfold read_from_fifo, bind.
  destruct (get_exp_msb dev rh w') as [[[e m] | e |] w1]; [| reflexivity ..].
  destruct (get_lsb_counter_crc dev rl w1) as [[[[l c] r] | e' |] w2];
    reflexivity.
Qed.

Lemma fifo_reads_agree_witness :
  read_lux_FIFO (steady (x00, x01, x00)) 2 (mkWorld [0; 0; 0] [] 0) =
  read_result_FIFO (steady (x00, x01, x00)) 2 (mkWorld [0; 0; 0] [] 0).
Proof.
  apply (fifo_reads_agree (steady (x00, x01, x00)) 2 (mkWorld [0; 0; 0] [] 0)).
  right. right. reflexivity.
Defined.

(** [result_of_addr] is the wait followed by the statements of
    [read_from_fifo] on RESULT_H and RESULT_L. *)
Lemma result_of_addr_unfold (dev : sensor) (fuel : nat) (just_lux : bool)
    (w : world) :
  result_of_addr dev fuel just_lux w =
  match wait_conversion_ready dev fuel
          (PrimFloat.add (monotonic_of (clock w)) 1.1%float) w with
  | (Returns _, w') => read_from_fifo dev RESULT_H RESULT_L just_lux w'
  | (Raises e, w') => (Raises e, w')
  | (OutOfFuel, w') => (OutOfFuel, w')
  end.
Proof. reflexivity. Qed.

(** Both decoders succeed only on a completed transaction; the fields they
    return are then those of the bytes left in the buffer. *)
Lemma get_exp_msb_inv (dev : sensor) (register x y z : Z) (log : list Z)
    (t exponent result_msb : Z) (w1 : world) :
  0 <= register < 256 ->
  get_exp_msb dev register (mkWorld [x; y; z] log t) =
    (Returns (exponent, result_msb), w1) ->
  exists h0 h1 h2,
    dev t log register = Some (h0, h1, h2) /\
    w1 = mkWorld [byte_val h0; byte_val h1; byte_val h2] (register :: log) t /\
    exponent = Z.land (Z.shiftr (byte_val h0) 4) (Z.shiftl 1 4 - 1) /\
    result_msb =
      Z.shiftl (Z.land (byte_val h0) (Z.shiftl 1 4 - 1)) 8 + byte_val h1.
Proof.
  intros Hr Hrun. rewrite get_exp_msb_run in Hrun by exact Hr.
  destruct (dev t log register) as [[[h0 h1] h2] |]; [| discriminate].
  exists h0, h1, h2.
  apply pair_equal_spec in Hrun. destruct Hrun as [Hv <-].
  apply Returns_inj, pair_equal_spec in Hv. destruct Hv as [<- <-].
  repeat split.
Qed.

Lemma get_lsb_counter_crc_inv (dev : sensor) (register x y z : Z)
    (log : list Z) (t result_lsb counter crc : Z) (w2 : world) :
  0 <= register < 256 ->
  get_lsb_counter_crc dev register (mkWorld [x; y; z] log t) =
    (Returns (result_lsb, counter, crc), w2) ->
  exists l0 l1 l2,
    dev t log register = Some (l0, l1, l2) /\
    w2 = mkWorld [byte_val l0; byte_val l1; byte_val l2] (register :: log) t /\
    result_lsb = byte_val l0 /\
    counter = Z.land (Z.shiftr (byte_val l1) 4) (Z.shiftl 1 4 - 1) /\
    crc = Z.land (byte_val l1) (Z.shiftl 1 4 - 1).
Proof.
  intros Hr Hrun. rewrite get_lsb_counter_crc_run in Hrun by exact Hr.
  destruct (dev t log register) as [[[l0 l1] l2] |]; [| discriminate].
  exists l0, l1, l2.
  apply pair_equal_spec in Hrun. destruct Hrun as [Hv <-].
  apply Returns_inj, pair_equal_spec in Hv. destruct Hv as [Hv <-].
  apply pair_equal_spec in Hv. destruct Hv as [<- <-].
  repeat split.
Qed.

Lemma lux_of_256 : lux_of 0 1 0 = 0.112%float.
Proof. vm_compute. reflexivity. Qed.

(** C2: with exponent and result_msb decoded from the high register and
    result_lsb from the low register, the read returns
    lux = (((result_msb << 8) | result_lsb) << exponent) * 0.0004375, the
    product taken in binary64: [read_from_fifo] does, and so does
    [result_of_addr] once its wait is over, on RESULT_H and RESULT_L; and
    when the high register holds (0x00, 0x01) and the low register
    (0x00, 0x00), that lux is 0.112. *)
Theorem lux_formula (dev : sensor) (register_high regist_low : Z)
    (just_lux : bool) (x y z : Z) (log : list Z) (t : Z)
    (exponent result_msb result_lsb counter crc : Z) (w1 w2 : world) :
  0 <= register_high < 256 ->
  0 <= regist_low < 256 ->
  get_exp_msb dev register_high (mkWorld [x; y; z] log t) =
    (Returns (exponent, result_msb), w1) ->
  get_lsb_counter_crc dev regist_low w1 =
    (Returns (result_lsb, counter, crc), w2) ->
  read_from_fifo dev register_high regist_low just_lux
    (mkWorld [x; y; z] log t) =
    (Returns
       (Tuple [Float (PrimFloat.mul
                        (float_of_int
                           (Z.shiftl
                              (Z.lor (Z.shiftl result_msb 8) result_lsb)
                              exponent))
                        0.0004375%float);
               Int counter; Int crc]),
     w2)
  /\
  (forall (fuel : nat) (w0 : world),
     register_high = RESULT_H ->
     regist_low = RESULT_L ->
     wait_conversion_ready dev fuel
       (PrimFloat.add (monotonic_of (clock w0)) 1.1%float) w0 =
       (Returns tt, mkWorld [x; y; z] log t) ->
     result_of_addr dev fuel just_lux w0 =
       (Returns
          (Tuple [Float (PrimFloat.mul
                           (float_of_int
                              (Z.shiftl
                                 (Z.lor (Z.shiftl result_msb 8) result_lsb)
                                 exponent))
                           0.0004375%float);
                  Int counter; Int crc]),
        w2))
  /\
  (firstn 2 (buf w1) = [0x00; 0x01] ->
   firstn 2 (buf w2) = [0x00; 0x00] ->
   PrimFloat.mul
     (float_of_int
        (Z.shiftl (Z.lor (Z.shiftl result_msb 8) result_lsb) exponent))
     0.0004375%float = 0.112%float
   /\ counter = 0 /\ crc = 0).
Proof.
  intros Hrh Hrl Hhigh Hlow.
  destruct (get_exp_msb_inv _ _ _ _ _ _ _ _ _ _ Hrh Hhigh)
    as (h0 & h1 & h2 & Hh & -> & He & Hm).
  destruct (get_lsb_counter_crc_inv _ _ _ _ _ _ _ _ _ _ _ Hrl Hlow)
    as (l0 & l1 & l2 & Hl & -> & Hlsb & Hc & Hcrc).
  assert (Hread :
    read_from_fifo dev register_high regist_low just_lux
      (mkWorld [x; y; z] log t) =
    (Returns
       (Tuple [Float (PrimFloat.mul
                        (float_of_int
                           (Z.shiftl
                              (Z.lor (Z.shiftl result_msb 8) result_lsb)
                              exponent))
                        0.0004375%float);
               Int counter; Int crc]),
     mkWorld [byte_val l0; byte_val l1; byte_val l2]
             (regist_low :: register_high :: log) t)).
  { rewrite (read_from_fifo_run dev _ _ just_lux x y z log t _ _ _ _ _ _
               Hrh Hrl Hh Hl).
    rewrite <- He, <- Hm, <- Hlsb, <- Hc, <- Hcrc.
    unfold lux_of, int_mul_float, adc_codes.
    rewrite mantissa_lor by (rewrite Hlsb; apply byte_val_range).
    reflexivity. }
  split; [exact Hread |]. split.
  - intros fuel w0 Erh Erl Hwait. subst register_high regist_low.
    rewrite result_of_addr_unfold, Hwait. exact Hread.
  - cbn [buf firstn]. intros Hb1 Hb2.
    injection Hb1 as Hh0 Hh1. injection Hb2 as Hl0 Hl1.
    rewrite Hh0 in He. rewrite Hh0, Hh1 in Hm.
    rewrite Hl1 in Hc, Hcrc. rewrite Hl0 in Hlsb.
    subst exponent result_msb result_lsb counter crc.
    split; [vm_compute; reflexivity | split; reflexivity].
Qed.

Lemma lux_formula_witness :
  read_from_fifo (bench (x00, x01) (x00, x00) (x00, x04)) RESULT_H RESULT_L
    true (mkWorld [0; 0; 0] [FLAGS] 0) =
    (Returns (Tuple [Float 0.112%float; Int 0; Int 0]),
     mkWorld [0; 0; 0] [RESULT_L; RESULT_H; FLAGS] 0)
  /\
  result_of_addr (bench (x00, x01) (x00, x00) (x00, x04)) 1 true
    (mkWorld [0; 0; 0] [] 0) =
    (Returns (Tuple [Float 0.112%float; Int 0; Int 0]),
     mkWorld [0; 0; 0] [RESULT_L; RESULT_H; FLAGS] 0).
Proof.
  destruct (lux_formula (bench (x00, x01) (x00, x00) (x00, x04))
              RESULT_H RESULT_L true 0 0 0 [FLAGS] 0 0 1 0 0 0
              (mkWorld [0; 1; 0] [RESULT_H; FLAGS] 0)
              (mkWorld [0; 0; 0] [RESULT_L; RESULT_H; FLAGS] 0))
    as (Hread & Hprimary & Hscenario).
  - unfold RESULT_H. lia.
  - unfold RESULT_L. lia.
  - reflexivity.
  - reflexivity.
  - destruct (Hscenario eq_refl eq_refl) as (Hlux & _ & _).
    rewrite <- Hlux. split.
    + exact Hread.
    + apply (Hprimary 1%nat (mkWorld [0; 0; 0] [] 0)); reflexivity.
Defined.

(** ** Ranges of the decoded fields *)

Lemma nibble_range (x : Z) :
  0 <= x < 256 ->
  0 <= Z.land (Z.shiftr x 4) (Z.shiftl 1 4 - 1) <= 15 /\
  0 <= Z.land x (Z.shiftl 1 4 - 1) <= 15.
Proof.
  intros Hx. rewrite high_nibble, low_nibble by exact Hx.
  pose proof (Z.mod_pos_bound x 16).
  assert (0 <= x / 16 < 16)
    by (split; [apply Z.div_pos; lia | apply Z.div_lt_upper_bound; lia]).
  lia.
Qed.

(** C8: the decoded exponent, counter and crc all lie in [0,15]; the exponent
    is the top nibble of the high register's first byte as it stands, also
    when that is 12 to 15, and the read goes on to return the lux of
    mantissa * 2^exponent: [read_from_fifo] does, and so does
    [result_of_addr] once its wait is over, on RESULT_H and RESULT_L. *)
Theorem decoded_field_ranges (dev : sensor) (register_high regist_low : Z)
    (just_lux : bool) (x y z : Z) (log : list Z) (t : Z)
    (exponent result_msb result_lsb counter crc : Z) (w1 w2 : world) :
  0 <= register_high < 256 ->
  0 <= regist_low < 256 ->
  get_exp_msb dev register_high (mkWorld [x; y; z] log t) =
    (Returns (exponent, result_msb), w1) ->
  get_lsb_counter_crc dev regist_low w1 =
    (Returns (result_lsb, counter, crc), w2) ->
  (0 <= exponent <= 15 /\ 0 <= counter <= 15 /\ 0 <= crc <= 15)
  /\
  exponent = Z.shiftr (nth 0 (buf w1) 0) 4
  /\
  read_from_fifo dev register_high regist_low just_lux
    (mkWorld [x; y; z] log t) =
    (Returns
       (Tuple [Float (int_mul_float
                        (mantissa result_msb result_lsb * 2 ^ exponent)
                        0.0004375%float);
               Int counter; Int crc]),
     w2)
  /\
  (forall (fuel : nat) (w0 : world),
     register_high = RESULT_H ->
     regist_low = RESULT_L ->
     wait_conversion_ready dev fuel
       (PrimFloat.add (monotonic_of (clock w0)) 1.1%float) w0 =
       (Returns tt, mkWorld [x; y; z] log t) ->
     result_of_addr dev fuel just_lux w0 =
       (Returns
          (Tuple [Float (int_mul_float
                           (mantissa result_msb result_lsb * 2 ^ exponent)
                           0.0004375%float);
                  Int counter; Int crc]),
        w2)).
Proof.
  intros Hrh Hrl Hhigh Hlow.
  destruct (get_exp_msb_inv _ _ _ _ _ _ _ _ _ _ Hrh Hhigh)
    as (h0 & h1 & h2 & Hh & -> & He & Hm).
  destruct (get_lsb_counter_crc_inv _ _ _ _ _ _ _ _ _ _ _ Hrl Hlow)
    as (l0 & l1 & l2 & Hl & -> & Hlsb & Hc & Hcrc).
  destruct (nibble_range _ (byte_val_range h0)) as [Hexp _].
  destruct (nibble_range _ (byte_val_range l1)) as [Hcnt Hchk].
  rewrite <- He in Hexp. rewrite <- Hc in Hcnt. rewrite <- Hcrc in Hchk.
  assert (Hread :
    read_from_fifo dev register_high regist_low just_lux
      (mkWorld [x; y; z] log t) =
    (Returns
       (Tuple [Float (int_mul_float
                        (mantissa result_msb result_lsb * 2 ^ exponent)
                        0.0004375%float);
               Int counter; Int crc]),
     mkWorld [byte_val l0; byte_val l1; byte_val l2]
             (regist_low :: register_high :: log) t)).
  { rewrite (read_from_fifo_run dev _ _ just_lux x y z log t _ _ _ _ _ _
               Hrh Hrl Hh Hl).
    rewrite <- He, <- Hm, <- Hlsb, <- Hc, <- Hcrc.
    unfold lux_of. rewrite adc_codes_mul by lia. reflexivity. }
  split; [repeat split; lia |]. split; [| split].
  - cbn [buf nth]. rewrite He, high_nibble by apply byte_val_range.
    rewrite Z.shiftr_div_pow2 by lia. reflexivity.
  - exact Hread.
  - intros fuel w0 Erh Erl Hwait. subst register_high regist_low.
    rewrite result_of_addr_unfold, Hwait. exact Hread.
Qed.

Lemma decoded_field_ranges_witness :
  (0 <= 15 <= 15 /\ 0 <= 9 <= 15 /\ 0 <= 6 <= 15)
  /\
  15 = Z.shiftr (nth 0 (buf (mkWorld [0xff; 0xff; 0] [RESULT_H; FLAGS] 7)) 0) 4
  /\
  read_from_fifo (bench (xff, xff) (xff, x96) (x00, x04)) RESULT_H RESULT_L
    false (mkWorld [0; 0; 0] [FLAGS] 7) =
    (Returns
       (Tuple [Float (int_mul_float (mantissa 0xfff 0xff * 2 ^ 15)
                        0.0004375%float);
               Int 9; Int 6]),
     mkWorld [0xff; 0x96; 0] [RESULT_L; RESULT_H; FLAGS] 7)
  /\
  result_of_addr (bench (xff, xff) (xff, x96) (x00, x04)) 1 false
    (mkWorld [0; 0; 0] [] 7) =
    (Returns
       (Tuple [Float (int_mul_float (mantissa 0xfff 0xff * 2 ^ 15)
                        0.0004375%float);
               Int 9; Int 6]),
     mkWorld [0xff; 0x96; 0] [RESULT_L; RESULT_H; FLAGS] 7).
Proof.
  destruct (decoded_field_ranges (bench (xff, xff) (xff, x96) (x00, x04))
              RESULT_H RESULT_L false 0 0 0 [FLAGS] 7 15 0xfff 0xff 9 6
              (mkWorld [0xff; 0xff; 0] [RESULT_H; FLAGS] 7)
              (mkWorld [0xff; 0x96; 0] [RESULT_L; RESULT_H; FLAGS] 7))
    as (Hrange & Hexp & Hread & Hprimary).
  - unfold RESULT_H. lia.
  - unfold RESULT_L. lia.
  - reflexivity.
  - reflexivity.
  - split; [exact Hrange |]. split; [exact Hexp |]. split; [exact Hread |].
    apply (Hprimary 1%nat (mkWorld [0; 0; 0] [] 7)); reflexivity.
Defined.

(** ** The shape of what the reads return *)

(** Every read that returns hands back a tuple of three, whatever
    [just_lux] says. *)
Lemma read_from_fifo_shape (dev : sensor) (register_high regist_low : Z)
    (just_lux : bool) (w w' : world) (v : value) :
  read_from_fifo dev register_high regist_low just_lux w = (Returns v, w') ->
  exists lx counter crc, v = Tuple [Float lx; Int counter; Int crc].
Proof.
  unfold read_from_fifo, bind.
  destruct (get_exp_msb dev register_high w) as [[[e m] | e |] w1];
    [| discriminate ..].
  destruct (get_lsb_counter_crc dev regist_low w1) as [[[[l c] r] | e' |] w2];
    [| discriminate ..].
  unfold ret. intros H. apply pair_equal_spec in H. destruct H as [H _].
  apply Returns_inj in H. subst v.
  exists (lux_of e m l), c, r. destruct just_lux; reflexivity.
Qed.

(** C1 fails on the code: with the high register at (0x00, 0x01) and the low
    register at (0x00, 0x00) the lux-only operations, the [lux] property and
    [read_lux_FIFO 0], return the tuple (0.112, 0, 0) and not the float
    0.112 alone. *)
Theorem lux_only_reads_return_triple :
  fst (lux (bench (x00, x01) (x00, x00) (x00, x04)) 1101
         (mkWorld [0; 0; 0] [] 0)) =
    Returns (Tuple [Float 0.112%float; Int 0; Int 0])
  /\
  fst (read_lux_FIFO (bench (x00, x01) (x00, x00) (x00, x04)) 0
         (mkWorld [0; 0; 0] [] 0)) =
    Returns (Tuple [Float 0.112%float; Int 0; Int 0])
  /\
  fst (lux (bench (x00, x01) (x00, x00) (x00, x04)) 1101
         (mkWorld [0; 0; 0] [] 0)) <>
    Returns (Float 0.112%float).
Proof.
  assert (Hlux : fst (lux (bench (x00, x01) (x00, x00) (x00, x04)) 1101
                        (mkWorld [0; 0; 0] [] 0)) =
                 Returns (Tuple [Float 0.112%float; Int 0; Int 0]))
    by (vm_compute; reflexivity).
  split; [exact Hlux |]. split.
  - vm_compute. reflexivity.
  - rewrite Hlux. discriminate.
Qed.

(** ** Monotonicity of the lux formula *)

(** The order on binary64 values, through its specification on
    [spec_float]. *)
Lemma SFleb_trans (a b c : spec_float) :
  SFleb a b = true -> SFleb b c = true -> SFleb a c = true.
Proof.
  unfold SFleb, SFcompare.
  destruct a as [sa | sa | | sa ma ea], b as [sb | sb | | sb mb eb],
    c as [sc | sc | | sc mc ec];
    try discriminate; try reflexivity;
    repeat match goal with s : bool |- _ => destruct s end;
    try discriminate; try reflexivity.
  all: rewrite <- ?Pos.compare_cont_spec; cbn [Pos.switch_Eq].
  all: fold (Pos.compare ma mb); fold (Pos.compare mb mc); fold (Pos.compare ma mc).
  all: destruct (Z.compare_spec ea eb); destruct (Z.compare_spec eb ec);
    destruct (Z.compare_spec ea ec); try discriminate; try reflexivity; try lia.
  all: subst.
  all: destruct (Pos.compare_spec ma mb); destruct (Pos.compare_spec mb mc);
    destruct (Pos.compare_spec ma mc); cbn; try discriminate; try reflexivity; try lia.
Qed.

Lemma SFleb_refl_l (a b : spec_float) : SFleb a b = true -> SFleb a a = true.
Proof.
  unfold SFleb, SFcompare.
  destruct a as [sa | sa | | sa ma ea]; try discriminate; try reflexivity.
  - destruct sa; reflexivity.
  - intros _. destruct sa; rewrite Z.compare_refl;
      fold (Pos.compare ma ma); rewrite Pos.compare_refl; reflexivity.
Qed.

Lemma leb_trans (x y z : float) :
  PrimFloat.leb x y = true -> PrimFloat.leb y z = true ->
  PrimFloat.leb x z = true.
Proof. rewrite !FloatAxioms.leb_spec. apply SFleb_trans. Qed.

Lemma leb_refl_l (x y : float) :
  PrimFloat.leb x y = true -> PrimFloat.leb x x = true.
Proof. rewrite !FloatAxioms.leb_spec. apply SFleb_refl_l. Qed.

Lemma wB_value : wB = 9223372036854775808.
Proof. reflexivity. Qed.

Lemma pow2i_spec (d : nat) : (d < 62)%nat -> Uint63.to_Z (pow2i d) = 2 ^ Z.of_nat d.
Proof.
  induction d as [| d IH]; intros Hd.
  - reflexivity.
  - cbn [pow2i]. rewrite Uint63.mul_spec, IH by lia.
    change (Uint63.to_Z 2) with 2.
    rewrite Nat2Z.inj_succ, Z.pow_succ_r by lia.
    apply Z.mod_small. rewrite wB_value.
    assert (2 ^ Z.of_nat d <= 2 ^ 61) by (apply Z.pow_le_mono_r; lia).
    assert (0 < 2 ^ Z.of_nat d) by (apply Z.pow_pos_nonneg; lia).
    change (2 ^ 61) with 2305843009213693952 in *. lia.
Qed.

Lemma range_ok_sound (d : nat) :
  forall (e lo i : int),
    (d < 62)%nat ->
    Uint63.to_Z lo + 2 ^ Z.of_nat d <= 2 ^ 62 ->
    range_ok d e lo = true ->
    Uint63.to_Z lo <= Uint63.to_Z i < Uint63.to_Z lo + 2 ^ Z.of_nat d ->
    step_ok e i = true.
Proof.
  induction d as [| d IH]; intros e lo i Hd Hhi Hok Hi.
  - cbn [range_ok] in Hok. change (2 ^ Z.of_nat 0) with 1 in Hi.
    assert (i = lo) as -> by (apply to_Z_inj; lia). exact Hok.
  - cbn [range_ok] in Hok. apply andb_true_iff in Hok. destruct Hok as [Hl Hr].
    rewrite Nat2Z.inj_succ, Z.pow_succ_r in Hhi, Hi by lia.
    assert (Hp : 0 < 2 ^ Z.of_nat d) by (apply Z.pow_pos_nonneg; lia).
    assert (Hmid : Uint63.to_Z (lo + pow2i d)%uint63 = Uint63.to_Z lo + 2 ^ Z.of_nat d).
    { rewrite Uint63.add_spec, pow2i_spec by lia. apply Z.mod_small.
      pose proof (to_Z_bounded lo). rewrite wB_value.
      change (2 ^ 62) with 4611686018427387904 in Hhi. lia. }
    destruct (Z.lt_ge_cases (Uint63.to_Z i) (Uint63.to_Z lo + 2 ^ Z.of_nat d)) as [Hlt | Hge].
    + apply (IH e lo i); try assumption; lia.
    + apply (IH e (lo + pow2i d)%uint63 i); try assumption; lia.
Qed.

Lemma lux_of_code_spec (n : int) :
  lux_of_code n = int_mul_float (Uint63.to_Z n) 0.0004375%float.
Proof.
  unfold lux_of_code, int_mul_float, float_of_int.
  pose proof (to_Z_bounded n) as Hn. rewrite wB_value in Hn.
  replace ((0 <=? Uint63.to_Z n) && (Uint63.to_Z n <? 2 ^ 63)) with true.
  - rewrite of_to_Z. reflexivity.
  - symmetry. apply andb_true_iff. split; [apply Z.leb_le | apply Z.ltb_lt]; lia.
Qed.

Lemma step_ok_spec (e i : int) :
  Uint63.to_Z e <= 11 -> Uint63.to_Z i < 2 ^ 21 ->
  step_ok e i = true ->
  PrimFloat.leb (int_mul_float (Uint63.to_Z i * 2 ^ Uint63.to_Z e) 0.0004375%float)
                (int_mul_float ((Uint63.to_Z i + 1) * 2 ^ Uint63.to_Z e) 0.0004375%float) = true.
Proof.
  intros He Hi. unfold step_ok. rewrite !lux_of_code_spec.
  pose proof (to_Z_bounded e) as Be. pose proof (to_Z_bounded i) as Bi.
  assert (Hpow : 0 < 2 ^ Uint63.to_Z e <= 2 ^ 11)
    by (split; [apply Z.pow_pos_nonneg; lia | apply Z.pow_le_mono_r; lia]).
  change (2 ^ 11) with 2048 in Hpow. change (2 ^ 21) with 2097152 in Hi.
  rewrite !Uint63.lsl_spec, Uint63.add_spec, to_Z_1.
  rewrite (Z.mod_small (Uint63.to_Z i + 1)) by (rewrite wB_value; lia).
  rewrite !Z.mod_small by (rewrite wB_value; nia).
  trivial.
Qed.

(** Every code [i * 2^e] with [i] below 2^21 and [e] up to 11, checked
    against its right neighbour [(i + 1) * 2^e]. *)
Lemma levels_ok :
  forallb (fun e => range_ok 21 (Uint63.of_Z e) 0)
    [0; 1; 2; 3; 4; 5; 6; 7; 8; 9; 10; 11] = true.
Proof. vm_compute. reflexivity. Qed.

Lemma of_Z_small (z : Z) : 0 <= z < 2 ^ 62 -> Uint63.to_Z (Uint63.of_Z z) = z.
Proof.
  intros Hz. rewrite of_Z_spec. apply Z.mod_small. rewrite wB_value.
  change (2 ^ 62) with 4611686018427387904 in Hz. lia.
Qed.

Lemma neighbours_ordered (e i : Z) :
  0 <= e <= 11 -> 0 <= i < 2 ^ 21 ->
  PrimFloat.leb (int_mul_float (i * 2 ^ e) 0.0004375%float)
                (int_mul_float ((i + 1) * 2 ^ e) 0.0004375%float) = true.
Proof.
  intros He Hi.
  assert (Hi' : 0 <= i < 2 ^ 62).
  { change (2 ^ 21) with 2097152 in Hi.
    change (2 ^ 62) with 4611686018427387904. lia. }
  assert (He' : 0 <= e < 2 ^ 62).
  { change (2 ^ 62) with 4611686018427387904. lia. }
  pose proof (of_Z_small e He') as Ee. pose proof (of_Z_small i Hi') as Ei.
  rewrite <- Ee, <- Ei. apply step_ok_spec; [lia | lia |].
  apply (range_ok_sound 21 (Uint63.of_Z e) 0%uint63 (Uint63.of_Z i)).
  - lia.
  - change (Uint63.to_Z 0) with 0. apply Z.pow_le_mono_r; lia.
  - pose proof levels_ok as Hall. rewrite forallb_forall in Hall.
    apply (Hall e). cbn [In]. lia.
  - change (Uint63.to_Z 0) with 0. change (Z.of_nat 21) with 21. lia.
Qed.

Lemma codes_ordered_from (e : Z) (k : nat) :
  forall a : Z,
    0 <= e <= 11 -> 0 <= a -> a + Z.of_nat k < 2 ^ 21 ->
    PrimFloat.leb (int_mul_float (a * 2 ^ e) 0.0004375%float)
                  (int_mul_float ((a + Z.of_nat k) * 2 ^ e) 0.0004375%float)
    = true.
Proof.
  induction k as [| k IH]; intros a He Ha Hk.
  - rewrite Z.add_0_r.
    apply (leb_refl_l _ (int_mul_float ((a + 1) * 2 ^ e) 0.0004375%float)).
    apply neighbours_ordered; lia.
  - apply (leb_trans _ (int_mul_float ((a + Z.of_nat k) * 2 ^ e)
                          0.0004375%float)).
    + apply IH; lia.
    + replace (a + Z.of_nat (S k)) with (a + Z.of_nat k + 1) by lia.
      apply neighbours_ordered; lia.
Qed.

Lemma codes_ordered (e a b : Z) :
  0 <= e <= 11 -> 0 <= a <= b -> b < 2 ^ 21 ->
  PrimFloat.leb (int_mul_float (a * 2 ^ e) 0.0004375%float)
                (int_mul_float (b * 2 ^ e) 0.0004375%float) = true.
Proof.
  intros He Hab Hb.
  replace b with (a + Z.of_nat (Z.to_nat (b - a))) by lia.
  apply codes_ordered_from; lia.
Qed.

Lemma exponents_ordered (k : nat) :
  forall e a : Z,
    0 <= e -> e + Z.of_nat k <= 11 -> 0 <= a < 2 ^ 20 ->
    PrimFloat.leb (int_mul_float (a * 2 ^ e) 0.0004375%float)
                  (int_mul_float (a * 2 ^ (e + Z.of_nat k)) 0.0004375%float)
    = true.
Proof.
  change (2 ^ 20) with 1048576.
  induction k as [| k IH]; intros e a He Hk Ha.
  - rewrite Z.add_0_r. apply codes_ordered; lia.
  - apply (leb_trans _ (int_mul_float (a * 2 ^ (e + Z.of_nat k))
                          0.0004375%float)).
    + apply IH; lia.
    + replace (e + Z.of_nat (S k)) with (Z.succ (e + Z.of_nat k)) by lia.
      rewrite Z.pow_succ_r by lia.
      replace (a * (2 * 2 ^ (e + Z.of_nat k)))
        with (2 * a * 2 ^ (e + Z.of_nat k)) by ring.
      apply codes_ordered; lia.
Qed.

(** C7: for exponent in [0,11], result_msb in [0,4095] and result_lsb in
    [0,255], the lux goes up or stays as it is when result_msb grows, when
    result_lsb grows and when the exponent grows, the two others held
    fixed. *)
Theorem lux_monotone (exponent exponent' result_msb result_msb'
    result_lsb result_lsb' : Z) :
  0 <= exponent <= 11 -> 0 <= exponent' <= 11 ->
  0 <= result_msb <= 4095 -> 0 <= result_msb' <= 4095 ->
  0 <= result_lsb <= 255 -> 0 <= result_lsb' <= 255 ->
  (result_msb <= result_msb' ->
   PrimFloat.leb (lux_of exponent result_msb result_lsb)
                 (lux_of exponent result_msb' result_lsb) = true)
  /\
  (result_lsb <= result_lsb' ->
   PrimFloat.leb (lux_of exponent result_msb result_lsb)
                 (lux_of exponent result_msb result_lsb') = true)
  /\
  (exponent <= exponent' ->
   PrimFloat.leb (lux_of exponent result_msb result_lsb)
                 (lux_of exponent' result_msb result_lsb) = true).
Proof.
  intros He He' Hm Hm' Hl Hl'. unfold lux_of.
  rewrite !adc_codes_mul by lia.
  pose proof (mantissa_range _ _ Hm Hl) as R.
  pose proof (mantissa_range _ _ Hm' Hl) as Rm.
  pose proof (mantissa_range _ _ Hm Hl') as Rl.
  change (2 ^ 20) with 1048576 in R, Rm, Rl.
  assert (Hsh : forall v, Z.shiftl v 8 = v * 256)
    by (intros v; rewrite Z.shiftl_mul_pow2 by lia; reflexivity).
  repeat split.
  - intros Hle. apply codes_ordered; try lia.
    unfold mantissa in *. rewrite !Hsh in *. lia.
  - intros Hle. apply codes_ordered; try lia.
    unfold mantissa in *. lia.
  - intros Hle.
    replace exponent' with (exponent + Z.of_nat (Z.to_nat (exponent' - exponent)))
      by lia.
    apply exponents_ordered; lia.
Qed.

Lemma lux_monotone_witness :
  (100 <= 200 ->
   PrimFloat.leb (lux_of 3 100 5) (lux_of 3 200 5) = true)
  /\
  (5 <= 9 ->
   PrimFloat.leb (lux_of 3 100 5) (lux_of 3 100 9) = true)
  /\
  (3 <= 7 ->
   PrimFloat.leb (lux_of 3 100 5) (lux_of 7 100 5) = true).
Proof.
  apply (lux_monotone 3 7 100 200 5 9); lia.
Defined.

(** ** The polling window *)

Lemma SFleb_ltb_trans (a b c : spec_float) :
  SFleb a b = true -> SFltb b c = true -> SFltb a c = true.
Proof.
  unfold SFleb, SFltb, SFcompare.
  destruct a as [sa | sa | | sa ma ea], b as [sb | sb | | sb mb eb],
    c as [sc | sc | | sc mc ec];
    try discriminate; try reflexivity;
    repeat match goal with s : bool |- _ => destruct s end;
    try discriminate; try reflexivity.
  all: fold (Pos.compare ma mb); fold (Pos.compare mb mc);
    fold (Pos.compare ma mc).
  all: destruct (Z.compare_spec ea eb); destruct (Z.compare_spec eb ec);
    destruct (Z.compare_spec ea ec); try discriminate; try reflexivity;
    try lia.
  all: subst.
  all: destruct (Pos.compare_spec ma mb); destruct (Pos.compare_spec mb mc);
    destruct (Pos.compare_spec ma mc); cbn; try discriminate;
    try reflexivity; try lia.
Qed.

Lemma leb_ltb_trans (x y z : float) :
  PrimFloat.leb x y = true -> PrimFloat.ltb y z = true ->
  PrimFloat.ltb x z = true.
Proof.
  rewrite FloatAxioms.leb_spec, !FloatAxioms.ltb_spec.
  apply SFleb_ltb_trans.
Qed.

Lemma all_ok_sound (p : int -> bool) (d : nat) :
  forall (lo i : int),
    (d < 62)%nat ->
    Uint63.to_Z lo + 2 ^ Z.of_nat d <= 2 ^ 62 ->
    all_ok p d lo = true ->
    Uint63.to_Z lo <= Uint63.to_Z i < Uint63.to_Z lo + 2 ^ Z.of_nat d ->
    p i = true.
Proof.
  induction d as [| d IH]; intros lo i Hd Hhi Hok Hi.
  - cbn [all_ok] in Hok. change (2 ^ Z.of_nat 0) with 1 in Hi.
    assert (i = lo) as -> by (apply to_Z_inj; lia). exact Hok.
  - cbn [all_ok] in Hok. apply andb_true_iff in Hok. destruct Hok as [Hl Hr].
    rewrite Nat2Z.inj_succ, Z.pow_succ_r in Hhi, Hi by lia.
    assert (Hp : 0 < 2 ^ Z.of_nat d) by (apply Z.pow_pos_nonneg; lia).
    assert (Hmid : Uint63.to_Z (lo + pow2i d)%uint63
                   = Uint63.to_Z lo + 2 ^ Z.of_nat d).
    { rewrite Uint63.add_spec, pow2i_spec by lia. apply Z.mod_small.
      pose proof (to_Z_bounded lo). rewrite wB_value.
      change (2 ^ 62) with 4611686018427387904 in Hhi. lia. }
    destruct (Z.lt_ge_cases (Uint63.to_Z i)
                (Uint63.to_Z lo + 2 ^ Z.of_nat d)) as [Hlt | Hge].
    + apply (IH lo i); try assumption; lia.
    + apply (IH (lo + pow2i d)%uint63 i); try assumption; lia.
Qed.

(** The checker reads the clock as the driver does. *)
Lemma monotonic_of_code_spec (t k : Z) :
  0 <= t < 2 ^ 40 -> 0 <= k < 2 ^ 40 ->
  monotonic_of_code (Uint63.add (Uint63.of_Z t) (Uint63.of_Z k)) =
  monotonic_of (t + k).
Proof.
  intros Ht Hk. unfold monotonic_of_code, monotonic_of, float_of_int.
  change (2 ^ 40) with 1099511627776 in Ht, Hk.
  replace ((0 <=? t + k) && (t + k <? 2 ^ 63)) with true.
  - f_equal. f_equal. apply to_Z_inj.
    rewrite Uint63.add_spec, !of_Z_spec, wB_value.
    rewrite (Z.mod_small t), (Z.mod_small k) by lia.
    reflexivity.
  - symmetry. apply andb_true_iff.
    split; [apply Z.leb_le | apply Z.ltb_lt]; lia.
Qed.

Lemma monotonic_of_code_spec_0 (t : Z) :
  0 <= t < 2 ^ 40 -> monotonic_of_code (Uint63.of_Z t) = monotonic_of t.
Proof.
  intros Ht. rewrite <- (Z.add_0_r t) at 2.
  rewrite <- (monotonic_of_code_spec t 0) by lia.
  f_equal. apply to_Z_inj.
  rewrite Uint63.add_spec. change (Uint63.to_Z (Uint63.of_Z 0)) with 0.
  rewrite Z.add_0_r. symmetry. apply Z.mod_small. apply to_Z_bounded.
Qed.

(** Every start of a wait with the counter below 2^25 (a little over nine
    hours), and every tick of the clock a little beyond. *)
Lemma windows_checked : all_ok window_ok 25 0 = true.
Proof. vm_compute. reflexivity. Qed.

Lemma ticks_checked : all_ok tick_ok 11 33554432 = true.
Proof. vm_compute. reflexivity. Qed.

Lemma tick_ok_spec (t : Z) :
  0 <= t < 2 ^ 40 ->
  tick_ok (Uint63.of_Z t) = true ->
  PrimFloat.leb (monotonic_of t) (monotonic_of (t + 1)) = true.
Proof.
  intros Ht. unfold tick_ok.
  change 1%uint63 with (Uint63.of_Z 1).
  rewrite monotonic_of_code_spec, monotonic_of_code_spec_0 by lia. trivial.
Qed.

Lemma window_checked_at (t : Z) :
  0 <= t < 2 ^ 25 -> window_ok (Uint63.of_Z t) = true.
Proof.
  intros Ht. change (2 ^ 25) with 33554432 in Ht.
  apply (all_ok_sound window_ok 25 0%uint63 (Uint63.of_Z t)).
  - lia.
  - change (Uint63.to_Z 0) with 0. apply Z.pow_le_mono_r; lia.
  - exact windows_checked.
  - rewrite of_Z_small by (change (2 ^ 62) with 4611686018427387904; lia).
    change (Uint63.to_Z 0) with 0. change (2 ^ Z.of_nat 25) with 33554432.
    lia.
Qed.

Lemma clock_ticks_up (t : Z) :
  0 <= t < 2 ^ 25 + 2048 ->
  PrimFloat.leb (monotonic_of t) (monotonic_of (t + 1)) = true.
Proof.
  intros Ht. change (2 ^ 25) with 33554432 in Ht.
  apply tick_ok_spec; [change (2 ^ 40) with 1099511627776; lia |].
  destruct (Z.lt_ge_cases t 33554432) as [Hlo | Hhi].
  - pose proof (window_checked_at t ltac:(change (2 ^ 25) with 33554432; lia))
      as Hw.
    unfold window_ok in Hw. apply andb_true_iff in Hw. apply Hw.
  - apply (all_ok_sound tick_ok 11 33554432%uint63 (Uint63.of_Z t)).
    + lia.
    + change (Uint63.to_Z 33554432) with 33554432.
      change (2 ^ Z.of_nat 11) with 2048.
      change (2 ^ 62) with 4611686018427387904. lia.
    + exact ticks_checked.
    + rewrite of_Z_small by (change (2 ^ 62) with 4611686018427387904; lia).
      change (Uint63.to_Z 33554432) with 33554432.
      change (2 ^ Z.of_nat 11) with 2048. lia.
Qed.

Lemma clock_readings_ordered (k : nat) :
  forall a : Z,
    0 <= a -> a + Z.of_nat k < 2 ^ 25 + 2048 ->
    PrimFloat.leb (monotonic_of a) (monotonic_of (a + Z.of_nat k)) = true.
Proof.
  induction k as [| k IH]; intros a Ha Hk.
  - rewrite Z.add_0_r.
    apply (leb_refl_l _ (monotonic_of (a + 1))).
    apply clock_ticks_up; lia.
  - apply (leb_trans _ (monotonic_of (a + Z.of_nat k))).
    + apply IH; lia.
    + replace (a + Z.of_nat (S k)) with (a + Z.of_nat k + 1) by lia.
      apply clock_ticks_up; lia.
Qed.

(** A wait that starts with the counter at [t] still polls 1099 ms later,
    and no longer 1101 ms later. *)
Lemma window_ends (t : Z) :
  0 <= t < 2 ^ 25 ->
  PrimFloat.ltb (monotonic_of (t + 1099))
                (PrimFloat.add (monotonic_of t) 1.1%float) = true /\
  PrimFloat.ltb (monotonic_of (t + 1101))
                (PrimFloat.add (monotonic_of t) 1.1%float) = false.
Proof.
  intros Ht. pose proof (window_checked_at t Ht) as Hw.
  change (2 ^ 25) with 33554432 in Ht.
  unfold window_ok in Hw. cbv zeta in Hw.
  change 1099%uint63 with (Uint63.of_Z 1099) in Hw.
  change 1101%uint63 with (Uint63.of_Z 1101) in Hw.
  rewrite !monotonic_of_code_spec, monotonic_of_code_spec_0 in Hw
    by (change (2 ^ 40) with 1099511627776; lia).
  apply andb_true_iff in Hw. destruct Hw as [Hw _].
  apply andb_true_iff in Hw. destruct Hw as [Hin Hout].
  apply negb_true_iff in Hout. split; assumption.
Qed.

Lemma in_window (t : Z) (k : nat) :
  0 <= t < 2 ^ 25 -> (k < 1100)%nat ->
  PrimFloat.ltb (monotonic_of (t + Z.of_nat k))
                (PrimFloat.add (monotonic_of t) 1.1%float) = true.
Proof.
  intros Ht Hk. destruct (window_ends t Ht) as [Hin _].
  change (2 ^ 25) with 33554432 in Ht.
  apply (leb_ltb_trans _ (monotonic_of (t + 1099))); [| exact Hin].
  replace (t + 1099) with (t + Z.of_nat k + Z.of_nat (1099 - k)) by lia.
  apply clock_readings_ordered; [lia |].
  change (2 ^ 25) with 33554432. lia.
Qed.

Lemma repeat_app_cons {A : Type} (a : A) (n : nat) (l : list A) :
  repeat a n ++ a :: l = a :: repeat a n ++ l.
Proof.
  induction n as [| n IH]; cbn; [reflexivity | rewrite IH; reflexivity].
Qed.

(** One turn of the loop. *)
Lemma conversion_ready_flag_run (dev : sensor) (b log : list Z) (t : Z) :
  conversion_ready_flag dev (mkWorld b log t) =
  match flag_at dev t log with
  | Some ready => (Returns ready, mkWorld b (FLAGS :: log) t)
  | None => (Raises (OSError FLAGS), mkWorld b (FLAGS :: log) t)
  end.
Proof.
  unfold conversion_ready_flag, flag_at. cbn [buf bus_log clock].
  destruct (dev t log FLAGS) as [[[d0 d1] d2] |]; reflexivity.
Qed.

Lemma wait_step (dev : sensor) (fuel : nat) (b log : list Z) (t : Z)
    (start_time : float) :
  PrimFloat.ltb (monotonic_of t) start_time = true ->
  wait_conversion_ready dev (S fuel) start_time (mkWorld b log t) =
  match flag_at dev t log with
  | Some true => (Returns tt, mkWorld b (FLAGS :: log) t)
  | Some false =>
      wait_conversion_ready dev fuel start_time
        (mkWorld b (FLAGS :: log) (t + 1))
  | None => (Raises (OSError FLAGS), mkWorld b (FLAGS :: log) t)
  end.
Proof.
  intros Hlt. cbn [wait_conversion_ready].
  unfold bind at 1, time_monotonic. cbn [clock]. rewrite Hlt.
  unfold bind at 1. rewrite conversion_ready_flag_run.
  destruct (flag_at dev t log) as [[|] |]; reflexivity.
Qed.

Lemma wait_exit (dev : sensor) (fuel : nat) (b log : list Z) (t : Z)
    (start_time : float) :
  PrimFloat.ltb (monotonic_of t) start_time = false ->
  wait_conversion_ready dev (S fuel) start_time (mkWorld b log t) =
  (Returns tt, mkWorld b log t).
Proof.
  intros Hge. cbn [wait_conversion_ready].
  unfold bind at 1, time_monotonic. cbn [clock]. rewrite Hge. reflexivity.
Qed.





(** * Further properties of the driver *)

(** ** The identity check *)

Lemma id_fields (b0 b1 : Z) :
  0 <= b0 < 256 -> 0 <= b1 < 256 ->
  negb (negb (Z.land (Z.shiftr b0 4) (Z.shiftl 1 2 - 1) =? 0))
  && negb (negb (Z.shiftl (Z.land b0 (Z.shiftl 1 4 - 1)) 8 + b1 =? 0x121))
  = (Z.land b0 0x3F =? 0x01) && (b1 =? 0x21).
Proof.
  intros H0 H1. rewrite !negb_involutive.
  change (Z.shiftl 1 2 - 1) with (Z.ones 2). change 0x3F with (Z.ones 6).
  rewrite low_nibble, !Z.land_ones, Z.shiftr_div_pow2, Z.shiftl_mul_pow2 by lia.
  change (2 ^ 2) with 4. change (2 ^ 4) with 16. change (2 ^ 6) with 64.
  change (2 ^ 8) with 256.
  destruct (Z.eqb_spec ((b0 / 16) mod 4) 0) as [Hl | Hl];
    destruct (Z.eqb_spec (b0 mod 16 * 256 + b1) 289) as [Hh | Hh];
    destruct (Z.eqb_spec (b0 mod 64) 1) as [Hm | Hm];
    destruct (Z.eqb_spec b1 33) as [Hb | Hb];
    try reflexivity; exfalso;
    revert Hl Hh Hm Hb; Z.div_mod_to_equations; lia.
Qed.

(** X1: the identity check passes exactly when the low six bits of the first
    byte of DEVICE_ID are 0x01 and the second byte is 0x21; the two top bits
    of the first byte are not looked at. *)
Theorem check_id_accepts (dev : sensor) (x y z : Z) (log : list Z) (t : Z)
    (d0 d1 d2 : byte) :
  dev t log DEVICE_ID = Some (d0, d1, d2) ->
  check_id dev (mkWorld [x; y; z] log t) =
    (Returns ((Z.land (byte_val d0) 0x3F =? 0x01) && (byte_val d1 =? 0x21)),
     mkWorld [byte_val d0; byte_val d1; byte_val d2] (DEVICE_ID :: log) t).
Proof.
  intros Hdev. unfold check_id, bind at 1.
  rewrite read_u16_run, Hdev by (unfold DEVICE_ID; lia).
  cbn [after_read bus_log clock]. unfold bind at 1, buf_get at 1.
  cbn [buf nth_error].
  rewrite <- (id_fields _ _ (byte_val_range d0) (byte_val_range d1)).
  destruct (negb (Z.land (Z.shiftr (byte_val d0) 4) (Z.shiftl 1 2 - 1) =? 0));
    [reflexivity |].
  unfold bind, buf_get. cbn [buf nth_error].
  destruct (negb (Z.shiftl (Z.land (byte_val d0) (Z.shiftl 1 4 - 1)) 8
                  + byte_val d1 =? 0x121)); reflexivity.
Qed.

Lemma check_id_accepts_witness :
  check_id (steady (xc1, x21, x00)) (mkWorld [0; 0; 0] [] 0) =
    (Returns ((Z.land (byte_val xc1) 0x3F =? 0x01) && (byte_val x21 =? 0x21)),
     mkWorld [byte_val xc1; byte_val x21; byte_val x00] [DEVICE_ID] 0).
Proof.
  apply (check_id_accepts (steady (xc1, x21, x00)) 0 0 0 [] 0 xc1 x21 x00).
  reflexivity.
Defined.

(** X2: when the transaction on DEVICE_ID fails, [check_id] does not answer
    False: the bus error comes out of it, after that one access. *)
Theorem check_id_bus_failure (dev : sensor) (x y z : Z) (log : list Z)
    (t : Z) :
  dev t log DEVICE_ID = None ->
  check_id dev (mkWorld [x; y; z] log t) =
    (Raises (OSError DEVICE_ID),
     mkWorld [DEVICE_ID; y; z] (DEVICE_ID :: log) t).
Proof.
  intros Hdev. unfold check_id, bind at 1.
  rewrite read_u16_run, Hdev by (unfold DEVICE_ID; lia). reflexivity.
Qed.

Lemma check_id_bus_failure_witness :
  check_id (bench_dead DEVICE_ID (x01, x21, x00)) (mkWorld [0; 0; 0] [] 0) =
    (Raises (OSError DEVICE_ID), mkWorld [DEVICE_ID; 0; 0] [DEVICE_ID] 0).
Proof.
  apply (check_id_bus_failure (bench_dead DEVICE_ID (x01, x21, x00))
           0 0 0 [] 0).
  reflexivity.
Defined.

(** ** Bus failures during a read *)

(** A FIFO read, whatever the bus does. *)
Lemma read_from_fifo_cases (dev : sensor) (register_high regist_low : Z)
    (just_lux : bool) (x y z : Z) (log : list Z) (t : Z) :
  0 <= register_high < 256 ->
  0 <= regist_low < 256 ->
  read_from_fifo dev register_high regist_low just_lux
    (mkWorld [x; y; z] log t) =
  match dev t log register_high with
  | None => (Raises (OSError register_high),
             mkWorld [register_high; y; z] (register_high :: log) t)
  | Some (h0, h1, h2) =>
      match dev t (register_high :: log) regist_low with
      | None =>
          (Raises (OSError regist_low),
           mkWorld [regist_low; byte_val h1; byte_val h2]
                   (regist_low :: register_high :: log) t)
      | Some (l0, l1, l2) =>
          (Returns
             (Tuple [Float (lux_of
                              (Z.land (Z.shiftr (byte_val h0) 4)
                                      (Z.shiftl 1 4 - 1))
                              (Z.shiftl
                                 (Z.land (byte_val h0) (Z.shiftl 1 4 - 1)) 8
                               + byte_val h1)
                              (byte_val l0));
                     Int (Z.land (Z.shiftr (byte_val l1) 4)
                                 (Z.shiftl 1 4 - 1));
                     Int (Z.land (byte_val l1) (Z.shiftl 1 4 - 1))]),
           mkWorld [byte_val l0; byte_val l1; byte_val l2]
                   (regist_low :: register_high :: log) t)
      end
  end.
Proof.
  intros Hrh Hrl.
  destruct (dev t log register_high) as [[[h0 h1] h2] |] eqn:Hh.
  - destruct (dev t (register_high :: log) regist_low) as [[[l0 l1] l2] |]
      eqn:Hl.
    + exact (read_from_fifo_run dev _ _ just_lux x y z log t
               h0 h1 h2 l0 l1 l2 Hrh Hrl Hh Hl).
    + unfold read_from_fifo, bind at 1.
      rewrite get_exp_msb_run, Hh by exact Hrh.
      cbn [after_read bus_log clock]. unfold bind at 1.
      rewrite get_lsb_counter_crc_run, Hl by exact Hrl. reflexivity.
  - unfold read_from_fifo, bind at 1.
    rewrite get_exp_msb_run, Hh by exact Hrh. reflexivity.
Qed.

(** X3: when the read of the high register fails, [read_from_fifo] raises
    the bus error for that register and the low register is never
    addressed. *)
Theorem read_from_fifo_high_failure (dev : sensor)
    (register_high regist_low : Z) (just_lux : bool) (x y z : Z)
    (log : list Z) (t : Z) :
  0 <= register_high < 256 ->
  0 <= regist_low < 256 ->
  dev t log register_high = None ->
  fst (read_from_fifo dev register_high regist_low just_lux
         (mkWorld [x; y; z] log t)) = Raises (OSError register_high)
  /\
  bus_log (snd (read_from_fifo dev register_high regist_low just_lux
                  (mkWorld [x; y; z] log t))) = register_high :: log.
Proof.
  intros Hrh Hrl Hh. rewrite read_from_fifo_cases, Hh by assumption.
  split; reflexivity.
Qed.

Lemma read_from_fifo_high_failure_witness :
  fst (read_from_fifo (bench_dead FIFO_1_H (x00, x01, x00)) FIFO_1_H FIFO_1_L
         false (mkWorld [0; 0; 0] [] 0)) = Raises (OSError FIFO_1_H)
  /\
  bus_log (snd (read_from_fifo (bench_dead FIFO_1_H (x00, x01, x00))
                  FIFO_1_H FIFO_1_L false (mkWorld [0; 0; 0] [] 0))) =
    [FIFO_1_H].
Proof.
  apply (read_from_fifo_high_failure (bench_dead FIFO_1_H (x00, x01, x00))
           FIFO_1_H FIFO_1_L false 0 0 0 [] 0).
  - unfold FIFO_1_H. lia.
  - unfold FIFO_1_L. lia.
  - reflexivity.
Defined.

(** X4: when the high register is read and the read of the low register
    fails, [read_from_fifo] returns no partial measurement: it raises the bus
    error for the low register, and the scratch buffer is left holding that
    register's address in front of stale bytes of the high register. *)
Theorem read_from_fifo_low_failure (dev : sensor)
    (register_high regist_low : Z) (just_lux : bool) (x y z : Z)
    (log : list Z) (t : Z) (h0 h1 h2 : byte) :
  0 <= register_high < 256 ->
  0 <= regist_low < 256 ->
  dev t log register_high = Some (h0, h1, h2) ->
  dev t (register_high :: log) regist_low = None ->
  read_from_fifo dev register_high regist_low just_lux
    (mkWorld [x; y; z] log t) =
    (Raises (OSError regist_low),
     mkWorld [regist_low; byte_val h1; byte_val h2]
             (regist_low :: register_high :: log) t).
Proof.
  intros Hrh Hrl Hh Hl. rewrite read_from_fifo_cases, Hh, Hl by assumption.
  reflexivity.
Qed.

Lemma read_from_fifo_low_failure_witness :
  read_from_fifo (bench_dead FIFO_1_L (xb7, x5a, x00)) FIFO_1_H FIFO_1_L
    true (mkWorld [0; 0; 0] [] 0) =
    (Raises (OSError FIFO_1_L),
     mkWorld [FIFO_1_L; byte_val x5a; byte_val x00] [FIFO_1_L; FIFO_1_H] 0).
Proof.
  apply (read_from_fifo_low_failure (bench_dead FIFO_1_L (xb7, x5a, x00))
           FIFO_1_H FIFO_1_L true 0 0 0 [] 0 xb7 x5a x00).
  - unfold FIFO_1_H. lia.
  - unfold FIFO_1_L. lia.
  - reflexivity.
  - reflexivity.
Defined.

(** X5: what a read returns does not depend on what an earlier read left in
    the scratch buffer. *)
Theorem read_from_fifo_ignores_stale_buffer (dev : sensor)
    (register_high regist_low : Z) (just_lux : bool) (x y z x' y' z' : Z)
    (log : list Z) (t : Z) :
  0 <= register_high < 256 ->
  0 <= regist_low < 256 ->
  fst (read_from_fifo dev register_high regist_low just_lux
         (mkWorld [x; y; z] log t)) =
  fst (read_from_fifo dev register_high regist_low just_lux
         (mkWorld [x'; y'; z'] log t)).
Proof.
  intros Hrh Hrl. rewrite !read_from_fifo_cases by assumption.
  destruct (dev t log register_high) as [[[h0 h1] h2] |]; [| reflexivity].
  destruct (dev t (register_high :: log) regist_low) as [[[l0 l1] l2] |];
    reflexivity.
Qed.

Lemma read_from_fifo_ignores_stale_buffer_witness :
  fst (read_from_fifo (bench (xb7, x5a) (x12, x96) (x00, x04))
         FIFO_0_H FIFO_0_L false (mkWorld [0; 0; 0] [] 0)) =
  fst (read_from_fifo (bench (xb7, x5a) (x12, x96) (x00, x04))
         FIFO_0_H FIFO_0_L false (mkWorld [0xff; 0xee; 0xdd] [] 0)).
Proof.
  apply (read_from_fifo_ignores_stale_buffer
           (bench (xb7, x5a) (x12, x96) (x00, x04))
           FIFO_0_H FIFO_0_L false 0 0 0 0xff 0xee 0xdd [] 0).
  - unfold FIFO_0_H. lia.
  - unfold FIFO_0_L. lia.
Defined.

(** ** Sizes of the decoded numbers *)

(** X6: for whatever bytes the two registers hold, the decoded result_msb
    fits 12 bits, result_lsb fits 8 bits, and the ADC code is below 2^35,
    reserved exponents 12 to 15 included. *)
Theorem decoded_adc_code_range (dev : sensor) (register_high regist_low : Z)
    (x y z : Z) (log : list Z) (t : Z)
    (exponent result_msb result_lsb counter crc : Z) (w1 w2 : world) :
  0 <= register_high < 256 ->
  0 <= regist_low < 256 ->
  get_exp_msb dev register_high (mkWorld [x; y; z] log t) =
    (Returns (exponent, result_msb), w1) ->
  get_lsb_counter_crc dev regist_low w1 =
    (Returns (result_lsb, counter, crc), w2) ->
  0 <= result_msb <= 4095 /\
  0 <= result_lsb <= 255 /\
  0 <= adc_codes exponent result_msb result_lsb < 2 ^ 35.
Proof.
  intros Hrh Hrl Hhigh Hlow.
  destruct (get_exp_msb_inv _ _ _ _ _ _ _ _ _ _ Hrh Hhigh)
    as (h0 & h1 & h2 & Hh & -> & He & Hm).
  destruct (get_lsb_counter_crc_inv _ _ _ _ _ _ _ _ _ _ _ Hrl Hlow)
    as (l0 & l1 & l2 & Hl & -> & Hlsb & Hc & Hcrc).
  destruct (nibble_range _ (byte_val_range h0)) as [Hexp Hlow4].
  pose proof (byte_val_range h1) as B1. pose proof (byte_val_range l0) as B0.
  rewrite <- He in Hexp.
  assert (Hmsb : 0 <= result_msb <= 4095).
  { rewrite Hm, Z.shiftl_mul_pow2 by lia. change (2 ^ 8) with 256. lia. }
  assert (Hlsb' : 0 <= result_lsb <= 255) by lia.
  repeat split; try lia.
  - rewrite adc_codes_mul by lia.
    pose proof (mantissa_range _ _ Hmsb Hlsb') as R.
    assert (0 < 2 ^ exponent) by (apply Z.pow_pos_nonneg; lia). nia.
  - rewrite adc_codes_mul by lia.
    pose proof (mantissa_range _ _ Hmsb Hlsb') as R.
    assert (Hpow : 0 < 2 ^ exponent <= 2 ^ 15)
      by (split; [apply Z.pow_pos_nonneg; lia | apply Z.pow_le_mono_r; lia]).
    change (2 ^ 20) with 1048576 in R. change (2 ^ 15) with 32768 in Hpow.
    change (2 ^ 35) with 34359738368. nia.
Qed.

Lemma decoded_adc_code_range_witness :
  0 <= 0xfff <= 4095 /\
  0 <= 0xff <= 255 /\
  0 <= adc_codes 15 0xfff 0xff < 2 ^ 35.
Proof.
  apply (decoded_adc_code_range (bench (xff, xff) (xff, x96) (x00, x04))
           FIFO_2_H FIFO_2_L 0 0 0 [] 7 15 0xfff 0xff 9 6
           (mkWorld [0xff; 0xff; 0] [FIFO_2_H] 7)
           (mkWorld [0xff; 0x96; 0] [FIFO_2_L; FIFO_2_H] 7)).
  - unfold FIFO_2_H. lia.
  - unfold FIFO_2_L. lia.
  - reflexivity.
  - reflexivity.
Defined.

(** ** The conversion-ready wait, whatever the sensor does *)

Lemma wait_conversion_ready_bounded (dev : sensor) (n : nat) :
  forall (fuel : nat) (b log : list Z) (t : Z) (start_time : float),
    (n < fuel)%nat ->
    PrimFloat.ltb (monotonic_of (t + Z.of_nat n)) start_time = false ->
    exists (k : nat) (o : outcome unit) (t' : Z),
      (k <= n)%nat /\
      wait_conversion_ready dev fuel start_time (mkWorld b log t) =
        (o, mkWorld b (repeat FLAGS k ++ log) t') /\
      o <> OutOfFuel /\
      t <= t' <= t + Z.of_nat n.
Proof.
  induction n as [| n IH]; intros fuel b log t start_time Hfuel Hout;
    (destruct fuel as [| fuel]; [lia |]).
  - cbn [Z.of_nat] in Hout. rewrite Z.add_0_r in Hout.
    exists 0%nat, (Returns tt), t. rewrite wait_exit by exact Hout.
    repeat split; try lia; try discriminate.
  - destruct (PrimFloat.ltb (monotonic_of t) start_time) eqn:Hnow.
    + rewrite wait_step by exact Hnow.
      destruct (flag_at dev t log) as [[|] |].
      * exists 1%nat, (Returns tt), t.
        repeat split; try lia; try discriminate.
      * destruct (IH fuel b (FLAGS :: log) (t + 1) start_time)
          as (k & o & t' & Hk & Hrun & Ho & Ht'); try lia.
        { replace (t + 1 + Z.of_nat n) with (t + Z.of_nat (S n)) by lia.
          exact Hout. }
        exists (S k), o, t'. rewrite Hrun, repeat_app_cons.
        repeat split; try lia; try assumption.
      * exists 1%nat, (Raises (OSError FLAGS)), t.
        repeat split; try lia; try discriminate.
    + exists 0%nat, (Returns tt), t. rewrite wait_exit by exact Hnow.
      repeat split; try lia; try discriminate.
Qed.

(** X7: the wait is bounded whatever the sensor answers.  Started with the
    clock below 2^25 ms and given more than 1101 units of fuel,
    [result_of_addr] never runs out: it ends at most 1101 ms after it started
    and has put at most 1103 addresses on the bus (1101 polls of FLAGS and
    the two result registers). *)
Theorem result_of_addr_bounded_wait (dev : sensor) (fuel : nat)
    (just_lux : bool) (x y z : Z) (log : list Z) (t : Z) :
  0 <= t < 2 ^ 25 ->
  (1101 < fuel)%nat ->
  fst (result_of_addr dev fuel just_lux (mkWorld [x; y; z] log t))
    <> OutOfFuel
  /\
  t <= clock (snd (result_of_addr dev fuel just_lux
                     (mkWorld [x; y; z] log t))) <= t + 1101
  /\
  (length (bus_log (snd (result_of_addr dev fuel just_lux
                           (mkWorld [x; y; z] log t))))
   <= length log + 1103)%nat.
Proof.
  intros Ht Hfuel. rewrite result_of_addr_unfold. cbn [clock].
  destruct (window_ends t Ht) as [_ Hout].
  destruct (wait_conversion_ready_bounded dev 1101 fuel [x; y; z] log t
              (PrimFloat.add (monotonic_of t) 1.1%float) Hfuel Hout)
    as (k & o & t' & Hk & Hrun & Ho & Ht').
  rewrite Hrun.
  assert (Hlen : length (repeat FLAGS k ++ log) = (k + length log)%nat)
    by (rewrite length_app, repeat_length; reflexivity).
  change (Z.of_nat 1101) with 1101 in Ht'.
  destruct o as [[] | e |].
  - rewrite read_from_fifo_cases by (unfold RESULT_H, RESULT_L; lia).
    destruct (dev t' (repeat FLAGS k ++ log) RESULT_H) as [[[h0 h1] h2] |].
    + destruct (dev t' (RESULT_H :: repeat FLAGS k ++ log) RESULT_L)
        as [[[l0 l1] l2] |];
        cbn [fst snd clock bus_log length]; rewrite Hlen;
        (split; [discriminate | split; lia]).
    + cbn [fst snd clock bus_log length]. rewrite Hlen.
      split; [discriminate | split; lia].
  - cbn [fst snd clock bus_log]. rewrite Hlen.
    split; [discriminate | split; lia].
  - contradiction.
Qed.

Lemma result_of_addr_bounded_wait_witness :
  fst (result_of_addr (bench (x10, x00) (xff, x3c) (x00, x00)) 1102 false
         (mkWorld [0; 0; 0] [] 100))
    <> OutOfFuel
  /\
  100 <= clock (snd (result_of_addr (bench (x10, x00) (xff, x3c) (x00, x00))
                       1102 false (mkWorld [0; 0; 0] [] 100))) <= 100 + 1101
  /\
  (length (bus_log (snd (result_of_addr
                           (bench (x10, x00) (xff, x3c) (x00, x00))
                           1102 false (mkWorld [0; 0; 0] [] 100)%Z)))
   <= length (@nil Z) + 1103)%nat.
Proof.
  apply (result_of_addr_bounded_wait (bench (x10, x00) (xff, x3c) (x00, x00))
           1102 false 0 0 0 [] 100).
  - lia.
  - lia.
Defined.

Lemma wait_conversion_ready_until (dev : sensor) (k : nat) :
  forall (fuel : nat) (b log : list Z) (t : Z) (start_time : float),
    (k < fuel)%nat ->
    (forall j : nat, (j <= k)%nat ->
       PrimFloat.ltb (monotonic_of (t + Z.of_nat j)) start_time = true) ->
    (forall j : nat, (j < k)%nat ->
       flag_at dev (t + Z.of_nat j) (repeat FLAGS j ++ log) = Some false) ->
    flag_at dev (t + Z.of_nat k) (repeat FLAGS k ++ log) = Some true ->
    wait_conversion_ready dev fuel start_time (mkWorld b log t) =
    (Returns tt, mkWorld b (repeat FLAGS (S k) ++ log) (t + Z.of_nat k)).
Proof.
  induction k as [| k IH];
    intros fuel b log t start_time Hfuel Hin Hclear Hset;
    (destruct fuel as [| fuel]; [lia |]);
    pose proof (Hin 0%nat ltac:(lia)) as Hnow;
    cbn [Z.of_nat] in Hnow; rewrite Z.add_0_r in Hnow;
    rewrite wait_step by exact Hnow.
  - cbn [repeat app Z.of_nat] in Hset. rewrite Z.add_0_r in Hset.
    rewrite Hset. cbn [repeat app Z.of_nat]. rewrite Z.add_0_r. reflexivity.
  - pose proof (Hclear 0%nat ltac:(lia)) as H0.
    cbn [repeat app Z.of_nat] in H0. rewrite Z.add_0_r in H0. rewrite H0.
    rewrite (IH fuel b (FLAGS :: log) (t + 1) start_time).
    + rewrite repeat_app_cons. f_equal. f_equal. lia.
    + lia.
    + intros j Hj.
      replace (t + 1 + Z.of_nat j) with (t + Z.of_nat (S j)) by lia.
      apply Hin. lia.
    + intros j Hj. rewrite repeat_app_cons.
      replace (t + 1 + Z.of_nat j) with (t + Z.of_nat (S j)) by lia.
      apply (Hclear (S j)). lia.
    + rewrite repeat_app_cons.
      replace (t + 1 + Z.of_nat k) with (t + Z.of_nat (S k)) by lia.
      exact Hset.
Qed.

(** X8: the wait ends with the first poll that shows the ready bit.  Started
    with the clock below 2^25 ms, if the first [k] polls, one millisecond
    apart, show it clear and the next one shows it set, with [k] below 1100,
    then [result_of_addr] has polled FLAGS [k + 1] times and slept [k] ms,
    and goes on to read RESULT_H and RESULT_L at that time. *)
Theorem result_of_addr_ready_at (dev : sensor) (fuel : nat) (just_lux : bool)
    (x y z : Z) (log : list Z) (t : Z) (k : nat) :
  0 <= t < 2 ^ 25 ->
  (k < 1100)%nat ->
  (k < fuel)%nat ->
  (forall j : nat, (j < k)%nat ->
     flag_at dev (t + Z.of_nat j) (repeat FLAGS j ++ log) = Some false) ->
  flag_at dev (t + Z.of_nat k) (repeat FLAGS k ++ log) = Some true ->
  result_of_addr dev fuel just_lux (mkWorld [x; y; z] log t) =
  read_from_fifo dev RESULT_H RESULT_L just_lux
    (mkWorld [x; y; z] (repeat FLAGS (S k) ++ log) (t + Z.of_nat k)).
Proof.
  intros Ht Hk Hfuel Hclear Hset. rewrite result_of_addr_unfold. cbn [clock].
  rewrite (wait_conversion_ready_until dev k fuel [x; y; z] log t);
    try assumption.
  - reflexivity.
  - intros j Hj. apply in_window; [exact Ht | lia].
Qed.

Lemma result_of_addr_ready_at_witness :
  result_of_addr (bench_ready_at 12 (x10, x00) (xff, x3c)) 5 true
    (mkWorld [0; 0; 0] [] 10) =
  read_from_fifo (bench_ready_at 12 (x10, x00) (xff, x3c))
    RESULT_H RESULT_L true
    (mkWorld [0; 0; 0] (repeat FLAGS 3 ++ []) (10 + Z.of_nat 2)).
Proof.
  apply (result_of_addr_ready_at (bench_ready_at 12 (x10, x00) (xff, x3c))
           5 true 0 0 0 [] 10 2).
  - lia.
  - lia.
  - lia.
  - intros j Hj. destruct j as [| [| j]]; [reflexivity | reflexivity | lia].
  - reflexivity.
Defined.

(** X9: started with the clock below 2^25 ms, when the first poll of FLAGS
    fails on the bus, the primary read raises that bus error and the result
    registers are never addressed. *)
Theorem result_of_addr_flag_failure (dev : sensor) (fuel : nat)
    (just_lux : bool) (x y z : Z) (log : list Z) (t : Z) :
  0 <= t < 2 ^ 25 ->
  (0 < fuel)%nat ->
  flag_at dev t log = None ->
  result_of_addr dev fuel just_lux (mkWorld [x; y; z] log t) =
    (Raises (OSError FLAGS), mkWorld [x; y; z] (FLAGS :: log) t).
Proof.
  intros Ht Hfuel Hflag. rewrite result_of_addr_unfold. cbn [clock].
  destruct fuel as [| fuel]; [lia |].
  pose proof (in_window t 0 Ht ltac:(lia)) as Hnow.
  cbn [Z.of_nat] in Hnow. rewrite Z.add_0_r in Hnow.
  rewrite wait_step, Hflag by exact Hnow. reflexivity.
Qed.

Lemma result_of_addr_flag_failure_witness :
  result_of_addr (bench_dead FLAGS (x00, x01, x00)) 1 true
    (mkWorld [0; 0; 0] [] 0) =
    (Raises (OSError FLAGS), mkWorld [0; 0; 0] [FLAGS] 0).
Proof.
  apply (result_of_addr_flag_failure (bench_dead FLAGS (x00, x01, x00))
           1 true 0 0 0 [] 0).
  - lia.
  - lia.
  - reflexivity.
Defined.

(** ** The public reads *)

(** X10: the [result] property and the [lux] property are the same
    operation: same outcome, same bus traffic, same final state, for every
    sensor, state and amount of fuel. *)
Theorem result_same_as_lux (dev : sensor) (fuel : nat) (w : world) :
  result dev fuel w = lux dev fuel w.
Proof.
  unfold result, lux. rewrite !result_of_addr_unfold.
  destruct (wait_conversion_ready dev fuel
              (PrimFloat.add (monotonic_of (clock w)) 1.1%float) w)
    as [[[] | e |] w']; [| reflexivity ..].
  unfold read_from_fifo, bind.
  destruct (get_exp_msb dev RESULT_H w') as [[[e m] | e |] w1];
    [| reflexivity ..].
  destruct (get_lsb_counter_crc dev RESULT_L w1) as [[[[l c] r] | e' |] w2];
    reflexivity.
Qed.

(** X11: for a slot 0, 1 or 2, [read_result_FIFO] addresses register
    2 * id + 2 and then register 2 * id + 3, and nothing else: it does not
    poll FLAGS and takes no time.  It returns the tuple (lux, counter, crc)
    decoded from the bytes of those two registers. *)
Theorem read_result_FIFO_registers (dev : sensor) (id x y z : Z)
    (log : list Z) (t : Z) (h0 h1 h2 l0 l1 l2 : byte) :
  0 <= id <= 2 ->
  dev t log (2 * id + 2) = Some (h0, h1, h2) ->
  dev t (2 * id + 2 :: log) (2 * id + 3) = Some (l0, l1, l2) ->
  read_result_FIFO dev id (mkWorld [x; y; z] log t) =
    (Returns
       (Tuple [Float (lux_of (Z.land (Z.shiftr (byte_val h0) 4) 0xF)
                             (Z.lor (Z.shiftl (Z.land (byte_val h0) 0xF) 8)
                                    (byte_val h1))
                             (byte_val l0));
               Int (Z.land (Z.shiftr (byte_val l1) 4) 0xF);
               Int (Z.land (byte_val l1) 0xF)]),
     mkWorld [byte_val l0; byte_val l1; byte_val l2]
             (2 * id + 3 :: 2 * id + 2 :: log) t).
Proof.
  intros Hid Hh Hl. rewrite <- msb_add_lor.
  assert (Hcases : id = 0 \/ id = 1 \/ id = 2) by lia.
  destruct Hcases as [-> | [-> | ->]];
    unfold read_result_FIFO, bind at 1; cbn [subscript channels dict_find];
    cbn [Z.eqb Pos.eqb ret];
    apply (read_from_fifo_run dev _ _ false x y z log t h0 h1 h2 l0 l1 l2);
    first [ assumption
          | unfold FIFO_0_H, FIFO_0_L, FIFO_1_H, FIFO_1_L, FIFO_2_H, FIFO_2_L;
            lia ].
Qed.

Lemma read_result_FIFO_registers_witness :
  read_result_FIFO (bench (xb7, x5a) (x12, x96) (x00, x00)) 1
    (mkWorld [0; 0; 0] [] 0) =
    (Returns
       (Tuple [Float (lux_of (Z.land (Z.shiftr (byte_val xb7) 4) 0xF)
                             (Z.lor (Z.shiftl (Z.land (byte_val xb7) 0xF) 8)
                                    (byte_val x5a))
                             (byte_val x12));
               Int (Z.land (Z.shiftr (byte_val x96) 4) 0xF);
               Int (Z.land (byte_val x96) 0xF)]),
     mkWorld [byte_val x12; byte_val x96; byte_val x00]
             [2 * 1 + 3; 2 * 1 + 2] 0).
Proof.
  apply (read_result_FIFO_registers (bench (xb7, x5a) (x12, x96) (x00, x00))
           1 0 0 0 [] 0 xb7 x5a x00 x12 x96 x00).
  - lia.
  - reflexivity.
  - reflexivity.
Defined.

(** ** The range of the lux value *)

Lemma lux_of_code_0 : int_mul_float 0 0.0004375%float = 0%float.
Proof. vm_compute. reflexivity. Qed.

Lemma lux_of_code_1 : int_mul_float 1 0.0004375%float = 0.0004375%float.
Proof. vm_compute. reflexivity. Qed.

Lemma lux_of_code_max :
  int_mul_float ((2 ^ 20 - 1) * 2 ^ 11) 0.0004375%float = 939523.20000000007%float.
Proof. vm_compute. reflexivity. Qed.

(** X12: for exponent in [0,11], result_msb in [0,4095] and result_lsb in
    [0,255] the lux is a number from 0 to 939523.20000000007, the binary64
    product for the largest code (2^20 - 1) * 2^11 (so it is never a NaN and
    never negative). *)
Theorem lux_within_full_scale (exponent result_msb result_lsb : Z) :
  0 <= exponent <= 11 ->
  0 <= result_msb <= 4095 ->
  0 <= result_lsb <= 255 ->
  PrimFloat.leb 0%float (lux_of exponent result_msb result_lsb) = true /\
  PrimFloat.leb (lux_of exponent result_msb result_lsb) 939523.20000000007%float = true.
Proof.
  intros He Hm Hl. unfold lux_of. rewrite adc_codes_mul by lia.
  pose proof (mantissa_range _ _ Hm Hl) as R.
  change (2 ^ 20) with 1048576 in R. split.
  - rewrite <- lux_of_code_0.
    replace 0 with (0 * 2 ^ exponent) at 1 by lia.
    apply codes_ordered; lia.
  - rewrite <- lux_of_code_max.
    apply (leb_trans _ (int_mul_float
                          (mantissa result_msb result_lsb * 2 ^ 11)
                          0.0004375%float)).
    + replace 11 with (exponent + Z.of_nat (Z.to_nat (11 - exponent))) at 1
        by lia.
      apply exponents_ordered; lia.
    + apply codes_ordered; lia.
Qed.

Lemma lux_within_full_scale_witness :
  PrimFloat.leb 0%float (lux_of 11 4095 255) = true /\
  PrimFloat.leb (lux_of 11 4095 255) 939523.20000000007%float = true.
Proof.
  apply (lux_within_full_scale 11 4095 255); lia.
Defined.

(** X13: within those ranges the lux is 0 when result_msb and result_lsb are
    both 0, and at least 0.0004375, one step of the scale, as soon as one of
    them is not. *)
Theorem lux_zero_or_one_step (exponent result_msb result_lsb : Z) :
  0 <= exponent <= 11 ->
  0 <= result_msb <= 4095 ->
  0 <= result_lsb <= 255 ->
  (result_msb = 0 -> result_lsb = 0 ->
   lux_of exponent result_msb result_lsb = 0%float)
  /\
  (0 < result_msb \/ 0 < result_lsb ->
   PrimFloat.leb 0.0004375%float (lux_of exponent result_msb result_lsb)
   = true).
Proof.
  intros He Hm Hl. unfold lux_of. rewrite adc_codes_mul by lia. split.
  - intros -> ->. change (mantissa 0 0) with 0. rewrite Z.mul_0_l.
    apply lux_of_code_0.
  - intros Hpos.
    pose proof (mantissa_range _ _ Hm Hl) as R.
    change (2 ^ 20) with 1048576 in R.
    assert (Hone : 1 <= mantissa result_msb result_lsb).
    { unfold mantissa in *. rewrite Z.shiftl_mul_pow2 in * by lia.
      change (2 ^ 8) with 256 in *. lia. }
    rewrite <- lux_of_code_1.
    apply (leb_trans _ (int_mul_float (1 * 2 ^ exponent) 0.0004375%float)).
    + replace 1 with (1 * 2 ^ 0) at 1 by reflexivity.
      replace exponent with (0 + Z.of_nat (Z.to_nat exponent)) at 1 by lia.
      apply exponents_ordered; lia.
    + apply codes_ordered; lia.
Qed.

Lemma lux_zero_or_one_step_witness :
  (0 = 0 -> 1 = 0 -> lux_of 4 0 1 = 0%float)
  /\
  (0 < 0 \/ 0 < 1 ->
   PrimFloat.leb 0.0004375%float (lux_of 4 0 1) = true).
Proof.
  apply (lux_zero_or_one_step 4 0 1); lia.
Defined.
